(** * runner.py: the container runner of the bot, as a shallow embedding

    [runner.py] is initialisation glue around an external module ([bot.py],
    imported as [app]) and two libraries (aiogram, aiohttp).  The embedding
    keeps the control flow of the two coroutines [_build_bot] and [main]
    statement by statement.  What the source cannot decide by itself -- whether
    a call into a library or into the external module returns or raises -- is
    read from a [World], one per run, and every such call is appended, with its
    outcome, to a trace.  Python's [try/except Exception] and [try/finally]
    are combinators of a small state-and-exception monad. *)

From Stdlib Require Import ZArith String Ascii List Bool Lia.
From stdpp Require Import base option gmap strings list.
Import ListNotations.

Local Open Scope string_scope.
Local Open Scope Z_scope.

(** ** Exceptions *)

(** Python exception objects, by class.  [except Exception] catches the
    classes derived from [Exception]; [KeyboardInterrupt], [SystemExit],
    [GeneratorExit] and [asyncio.CancelledError] derive from [BaseException]
    only and pass through such a handler.  [InvalidLiteral s] is the
    [ValueError] that [int] raises when it rejects the string [s]: it is
    kept by its cause, its message (which quotes [s]) is not rendered. *)
Inductive exn : Type :=
| RuntimeError (msg : string)
| ValueError (msg : string)
| InvalidLiteral (literal : string)
| AttributeError (msg : string)
| OtherException (cls : string)
| NonException (cls : string).

(** [isinstance(e, Exception)] *)
Definition is_Exception (e : exn) : bool :=
  match e with
  | NonException _ => false
  | _ => true
  end.

(** ** Values *)

Inductive addr_family : Type := AF_INET | AF_INET6 | AF_UNSPEC.

(** [aiohttp.TCPConnector(family=...)] *)
Record Connector : Type := { family : addr_family }.

(** A keyword argument handed to [AiohttpSession]. *)
Inductive kwarg : Type :=
| KConnector (c : Connector)
| KBool (b : bool).

(** An [AiohttpSession]: it remembers the keyword arguments it was built with. *)
Record Session : Type := { session_kwargs : gmap string kwarg }.

Inductive parse_mode : Type := HTML | MARKDOWN | MARKDOWN_V2.

(** What can sit in an attribute of the external module, or in a local. *)
Inductive value : Type :=
| VNone
| VBool (b : bool)
| VInt (z : Z)
| VStr (s : string)
| VObj (name : string)
| VBot (token : value) (pm : parse_mode) (s : Session).

(** [aiogram.Bot(token=..., default=DefaultBotProperties(parse_mode=...), session=...)] *)
Record Bot : Type := {
  bot_token : value;
  bot_parse_mode : parse_mode;
  bot_session : Session
}.

(** Python truthiness, [bool(v)]. *)
Definition truthy (v : value) : bool :=
  match v with
  | VNone => false
  | VBool b => b
  | VInt z => negb (z =? 0)
  | VStr s => negb (String.eqb s "")
  | VObj _ => true
  | VBot _ _ _ => true
  end.

(** A [Bot] stored in an attribute. *)
Definition value_of_bot (b : Bot) : value :=
  VBot (bot_token b) (bot_parse_mode b) (bot_session b).

(** ** The health application (aiohttp.web) *)

Record Request : Type := { req_method : string; req_path : string }.

(** [web.Response(text=...)]; the status defaults to 200. *)
Record Response : Type := { status : Z; text : string }.

Definition web_Response (t : string) : Response := {| status := 200; text := t |}.

Definition handler : Type := Request -> Response.

Record route : Type := {
  route_method : string;
  route_path : string;
  route_handler : handler
}.

(** [web.Application()]: its router, as the routes in registration order. *)
Definition Application : Type := list route.

Definition web_Application : Application := [].

(** [app.router.add_get(path, h)]: with the default [allow_head=True] the
    handler is registered for HEAD as well as for GET. *)
Definition add_get (path : string) (h : handler) (a : Application) : Application :=
  (a ++ [ {| route_method := "HEAD"; route_path := path; route_handler := h |};
          {| route_method := "GET"; route_path := path; route_handler := h |} ])%list.

(** The first registered route matching the method and the path. *)
Fixpoint resolve (a : Application) (m p : string) : option handler :=
  match a with
  | [] => None
  | r :: a' =>
      if String.eqb (route_method r) m && String.eqb (route_path r) p
      then Some (route_handler r)
      else resolve a' m p
  end.

(** Some route is registered for the path, whatever its method. *)
Definition path_known (a : Application) (p : string) : bool :=
  existsb (fun r => String.eqb (route_path r) p) a.

(** What the client is answered, as status and body: the handler's response
    (without its body when the request is a HEAD); 405 when the path is
    registered but not for this method; 404 when the path is not registered. *)
Definition serve (a : Application) (r : Request) : Response :=
  match resolve a (req_method r) (req_path r) with
  | Some h =>
      let resp := h r in
      if String.eqb (req_method r) "HEAD"
      then {| status := status resp; text := "" |}
      else resp
  | None =>
      if path_known a (req_path r)
      then {| status := 405; text := "405: Method Not Allowed" |}
      else {| status := 404; text := "404: Not Found" |}
  end.

(** [async def _health(_request): return web.Response(text="ok")] *)
Definition _health (_request : Request) : Response := web_Response "ok".

(** The application [main] builds: both routes carry [_health]. *)
Definition health_app : Application :=
  add_get "/health" _health (add_get "/" _health web_Application).

(** ** Calls that leave the source, and the world that answers them *)

Inductive call : Type :=
| TCPConnector (f : addr_family)
| Signature
| AiohttpSession (kwargs : gmap string kwarg)
| BotInit (token : value) (pm : parse_mode) (s : Session)
| RunnerSetup (a : Application)
| SiteStart (host : string) (port : Z)
| IncludeRouter (dp router : value)
| StartupRegister (dp hook : value)
| StartPolling (dp : value) (b : Bot)
| RunnerCleanup.

(** [None]: the call returned; [Some e]: it raised [e]. *)
Definition outcome : Type := option exn.

(** One run's answers.  [TCPConnector_result] is how lines 36-37 end (the
    import and the constructor); the imports of lines 24-27 name modules that
    [bot.py] has already loaded and are taken to succeed.  [signature_result] is
    [inspect.signature(AiohttpSession.__init__).parameters] (the parameter
    names) or the exception the introspection raises; [setattr_result] is
    asked with the attribute name on every assignment to the external module;
    [polling_attrs] is what the external application does to its own module
    attributes while it polls; [int_beyond] is what the interpreter's [int]
    does with a string outside the fragment [py_int] decides. *)
Record World : Type := {
  int_beyond : string -> exn + Z;
  TCPConnector_result : outcome;
  signature_result : exn + list string;
  AiohttpSession_result : outcome;
  Bot_result : outcome;
  setup_result : outcome;
  start_result : Z -> outcome;
  setattr_result : string -> outcome;
  include_router_result : outcome;
  register_result : outcome;
  start_polling_result : outcome;
  polling_attrs : gmap string value -> gmap string value;
  cleanup_result : outcome
}.

(** ** State, results, the monad *)

(** The process state the runner touches: the attributes of the external
    module [app] and the history of calls made so far. *)
Record state : Type := {
  attrs : gmap string value;
  trace : list (call * outcome)
}.

Inductive result (A : Type) : Type :=
| Ret (a : A)
| Raise (e : exn).
Arguments Ret {A} a.
Arguments Raise {A} e.

Definition M (A : Type) : Type := state -> result A * state.

Definition ret {A} (a : A) : M A := fun st => (Ret a, st).

Definition raise {A} (e : exn) : M A := fun st => (Raise e, st).

Definition bind {A B} (m : M A) (k : A -> M B) : M B :=
  fun st =>
    match m st with
    | (Ret a, st') => k a st'
    | (Raise e, st') => (Raise e, st')
    end.

Declare Scope py_scope.
Delimit Scope py_scope with py.
Notation "x <- m ;; k" := (bind m (fun x => k))
  (at level 100, m at next level, right associativity) : py_scope.
Notation "m ;; k" := (bind m (fun _ => k))
  (at level 100, right associativity) : py_scope.
Local Open Scope py_scope.

(** [try: body  except Exception: handler] *)
Definition try_except {A} (body : M A) (handler : M A) : M A :=
  fun st =>
    match body st with
    | (Raise e, st') => if is_Exception e then handler st' else (Raise e, st')
    | r => r
    end.

(** [try: body  finally: fin].  When [fin] raises, its exception replaces
    whatever [body] did. *)
Definition try_finally {A} (body : M A) (fin : M unit) : M A :=
  fun st =>
    match body st with
    | (r, st') =>
        match fin st' with
        | (Ret _, st'') => (r, st'')
        | (Raise e, st'') => (Raise e, st'')
        end
    end.

Definition log (c : call) (o : outcome) (st : state) : state :=
  {| attrs := attrs st; trace := (trace st ++ [(c, o)])%list |}.

(** A call that leaves the source: recorded, then returns or raises. *)
Definition ext (c : call) (o : outcome) : M unit :=
  fun st =>
    (match o with None => Ret tt | Some e => Raise e end, log c o st).

(** [getattr(app, name, default)] *)
Definition getattr_default (name : string) (dflt : value) : M value :=
  fun st => (Ret (default dflt (attrs st !! name)), st).

(** The message of the [AttributeError] for a missing attribute of the
    module, whose name is [bot]. *)
Definition no_attribute_message (name : string) : string :=
  "module 'bot' has no attribute '" ++ name ++ "'".

(** [app.name] *)
Definition getattr (name : string) : M value :=
  fun st =>
    match attrs st !! name with
    | Some v => (Ret v, st)
    | None => (Raise (AttributeError (no_attribute_message name)), st)
    end.

(** [hasattr(app, name)] *)
Definition hasattr (name : string) : M bool :=
  fun st => (Ret (bool_decide (is_Some (attrs st !! name))), st).

(** [app.name = v] *)
Definition setattr (name : string) (v : value) (o : outcome) : M unit :=
  fun st =>
    match o with
    | None => (Ret tt, {| attrs := <[name := v]> (attrs st); trace := trace st |})
    | Some e => (Raise e, st)
    end.

(** ** The builtins the runner uses *)

(** [os.getenv(name)]: the variable's value, [None] when it is unset. *)
Definition getenv (env : gmap string string) (name : string) : value :=
  match env !! name with
  | Some s => VStr s
  | None => VNone
  end.

(** [os.getenv(name, dflt)]: always a string. *)
Definition getenv_default (env : gmap string string) (name dflt : string) : string :=
  default dflt (env !! name).

(** [x or y] on values already computed. *)
Definition py_or (x y : value) : value := if truthy x then x else y.

(** [int(s)] on a string, base 10, as CPython reads it: white space
    (the characters 9 to 13 and the space) is dropped on both sides, one sign
    is allowed, then decimal digits, where a single underscore may sit between
    two digits.  This is decided here for the strings made of ASCII
    characters only and at most 640 characters long: a longer literal can hit
    the interpreter's configurable limit on digits, and other characters
    bring in Unicode digits and spaces; on those the reading is [Beyond]. *)
Inductive int_reading : Type :=
| Reads (n : Z)
| Rejects
| Beyond.

Definition is_space (c : ascii) : bool :=
  let n := nat_of_ascii c in
  ((9 <=? n)%nat && (n <=? 13)%nat) || (n =? 32)%nat.

Definition digit_of (c : ascii) : option Z :=
  let n := nat_of_ascii c in
  if ((48 <=? n)%nat && (n <=? 57)%nat) then Some (Z.of_nat n - 48) else None.

Fixpoint lstrip (l : list ascii) : list ascii :=
  match l with
  | c :: l' => if is_space c then lstrip l' else l
  | [] => []
  end.

Definition strip (l : list ascii) : list ascii := rev (lstrip (rev (lstrip l))).

(** [after_digit] tells whether the character just read was a digit: only
    then may the literal end or an underscore follow. *)
Fixpoint digits (acc : Z) (after_digit : bool) (l : list ascii) : option Z :=
  match l with
  | [] => if after_digit then Some acc else None
  | c :: l' =>
      match digit_of c with
      | Some d => digits (10 * acc + d) true l'
      | None =>
          if Ascii.eqb c "_"%char && after_digit then digits acc false l' else None
      end
  end.

Definition literal (l : list ascii) : option Z :=
  match strip l with
  | "-"%char :: l' => Z.opp <$> digits 0 false l'
  | "+"%char :: l' => digits 0 false l'
  | l' => digits 0 false l'
  end.

Definition within_fragment (l : list ascii) : bool :=
  forallb (fun c => (nat_of_ascii c <? 128)%nat) l && (length l <=? 640)%nat.

Definition py_int (s : string) : int_reading :=
  let l := list_ascii_of_string s in
  if within_fragment l then
    match literal l with
    | Some n => Reads n
    | None => Rejects
    end
  else Beyond.

(** What [int(s)] does in the world [w]: it returns an integer or raises. *)
Definition int_outcome (w : World) (s : string) : exn + Z :=
  match py_int s with
  | Reads n => inr n
  | Rejects => inl (InvalidLiteral s)
  | Beyond => int_beyond w s
  end.

Definition int (w : World) (s : string) : M Z :=
  match int_outcome w s with
  | inr n => ret n
  | inl e => raise e
  end.

(** ** runner.py *)

Section Runner.

(** [os.environ] and the answers of the world, for one run. *)
Variable env : gmap string string.
Variable w : World.

Definition no_token_message : string :=
  "BOT_TOKEN (or API_TOKEN in bot.py) topilmadi".

(** [os.getenv("BOT_TOKEN") or getattr(app, "API_TOKEN", None)]: the
    attribute is read only when the variable is falsy. *)
Definition resolve_token : M value :=
  let e := getenv env "BOT_TOKEN" in
  if truthy e then ret e
  else getattr_default "API_TOKEN" VNone.

(** Lines 34-39: the IPv4 connector, [None] when it cannot be built. *)
Definition build_connector : M (option Connector) :=
  try_except
    (ext (TCPConnector AF_INET) (TCPConnector_result w) ;;
     ret (Some {| family := AF_INET |}))
    (ret None).

(** [inspect.signature(AiohttpSession.__init__).parameters] *)
Definition signature_parameters : M (list string) :=
  fun st =>
    match signature_result w with
    | inr params => (Ret params, log Signature None st)
    | inl e => (Raise e, log Signature (Some e) st)
    end.

(** Lines 45-49: the two guarded assignments into [kwargs]. *)
Definition fill_kwargs (connector : option Connector) (params : list string)
    (kwargs : gmap string kwarg) : gmap string kwarg :=
  let kwargs :=
    match connector with
    | Some c =>
        if bool_decide ("connector" ∈ params)
        then <["connector" := KConnector c]> kwargs
        else kwargs
    | None => kwargs
    end in
  if bool_decide ("trust_env" ∈ params)
  then <["trust_env" := KBool true]> kwargs
  else kwargs.

(** Lines 42-52: the keyword arguments, from what the signature lists;
    none when the introspection raises. *)
Definition build_kwargs (connector : option Connector) : M (gmap string kwarg) :=
  try_except
    (params <- signature_parameters ;;
     ret (fill_kwargs connector params ∅))
    (ret ∅).

Definition _build_bot : M Bot :=
  token <- resolve_token ;;
  if negb (truthy token) then raise (RuntimeError no_token_message)
  else
    connector <- build_connector ;;
    kwargs <- build_kwargs connector ;;
    ext (AiohttpSession kwargs) (AiohttpSession_result w) ;;
    let session := {| session_kwargs := kwargs |} in
    ext (BotInit token HTML session) (Bot_result w) ;;
    ret {| bot_token := token; bot_parse_mode := HTML; bot_session := session |}.

(** Lines 85-89 *)
Definition patch_bot (bot : Bot) : M unit :=
  try_except
    (setattr "bot" (value_of_bot bot) (setattr_result w "bot"))
    (ret tt).

(** Lines 91-101 *)
Definition include_router_once : M unit :=
  try_except
    (included <- getattr_default "_KOYEB_ROUTER_INCLUDED" (VBool false) ;;
     if negb (truthy included) then
       try_except
         (dp <- getattr "dp" ;;
          router <- getattr "router" ;;
          ext (IncludeRouter dp router) (include_router_result w))
         (ret tt) ;;
       setattr "_KOYEB_ROUTER_INCLUDED" (VBool true)
         (setattr_result w "_KOYEB_ROUTER_INCLUDED")
     else ret tt)
    (ret tt).

(** Lines 103-111 *)
Definition register_startup : M unit :=
  try_except
    (defined <- hasattr "on_startup" ;;
     if (defined : bool) then
       try_except
         (dp <- getattr "dp" ;;
          hook <- getattr "on_startup" ;;
          ext (StartupRegister dp hook) (register_result w))
         (ret tt)
     else ret tt)
    (ret tt).

(** [await app.dp.start_polling(bot)]: control is with the external
    application until the call returns or raises. *)
Definition start_polling (bot : Bot) : M unit :=
  dp <- getattr "dp" ;;
  fun st =>
    (match start_polling_result w with None => Ret tt | Some e => Raise e end,
     {| attrs := polling_attrs w (attrs st);
        trace := (trace st ++ [(StartPolling dp bot, start_polling_result w)])%list |}).

(** Lines 116-119 *)
Definition cleanup : M unit :=
  try_except (ext RunnerCleanup (cleanup_result w)) (ret tt).

Definition main : M unit :=
  bot <- _build_bot ;;
  port <- int w (getenv_default env "PORT" "8000") ;;
  ext (RunnerSetup health_app) (setup_result w) ;;
  ext (SiteStart "0.0.0.0" port) (start_result w port) ;;
  patch_bot bot ;;
  include_router_once ;;
  register_startup ;;
  try_finally (start_polling bot) cleanup.

End Runner.

(** Invocations of [main] one after the other in one process: each starts
    from the state the one before left, with its own environment and world. *)
Fixpoint run_all (runs : list (gmap string string * World)) (st : state) : state :=
  match runs with
  | [] => st
  | (env, w) :: rest => run_all rest (main env w st).2
  end.

(** ** Vocabulary of the statements *)

(** The token [_build_bot] uses from [st]: every [Bot(...)] call it makes is
    given [t], and a bot it returns carries [t]. *)
Definition token_used (env : gmap string string) (w : World) (st : state)
    (t : value) : Prop :=
  ∃ evs, trace (_build_bot env w st).2 = (trace st ++ evs)%list
    ∧ (∀ t' pm s o, (BotInit t' pm s, o) ∈ evs → t' = t)
    ∧ (∀ b, (_build_bot env w st).1 = Ret b → bot_token b = t).

(** [_build_bot] from [st] gets past the token check of lines 30-31 -- what
    it does first is the connector probe of line 37 -- and works with the
    token [t]: every [Bot(...)] call it makes is given [t] and a bot it
    returns carries [t]; when the two probes raise nothing but [Exception]s
    and the session is constructed, [Bot(...)] is called with [t], and when
    that call returns too, a bot carrying [t] is returned. *)
Definition token_governs (env : gmap string string) (w : World) (st : state)
    (t : value) : Prop :=
  ∃ evs,
    trace (_build_bot env w st).2
    = (trace st ++ (TCPConnector AF_INET, TCPConnector_result w) :: evs)%list
    ∧ (∀ t' pm s o, (BotInit t' pm s, o) ∈ evs → t' = t)
    ∧ (∀ b, (_build_bot env w st).1 = Ret b → bot_token b = t)
    ∧ ((∀ e, TCPConnector_result w = Some e → is_Exception e = true) →
       (∀ e, signature_result w = inl e → is_Exception e = true) →
       AiohttpSession_result w = None →
       (∃ s, (BotInit t HTML s, Bot_result w) ∈ evs)
       ∧ (Bot_result w = None →
          ∃ b st', _build_bot env w st = (Ret b, st') ∧ bot_token b = t)).

Definition is_build_call (c : call) : bool :=
  match c with
  | TCPConnector _ | Signature | AiohttpSession _ | BotInit _ _ _ => true
  | _ => false
  end.

Definition is_wiring_call (c : call) : bool :=
  match c with
  | IncludeRouter _ _ | StartupRegister _ _ => true
  | _ => false
  end.

Definition is_IncludeRouter (c : call) : bool :=
  match c with IncludeRouter _ _ => true | _ => false end.

Definition is_StartupRegister (c : call) : bool :=
  match c with StartupRegister _ _ => true | _ => false end.

Definition is_StartPolling (c : call) : bool :=
  match c with StartPolling _ _ => true | _ => false end.

(** How many of the recorded calls are of the given kind. *)
Fixpoint count_calls (p : call → bool) (evs : list (call * outcome)) : nat :=
  match evs with
  | [] => 0%nat
  | (c, _) :: evs' => ((if p c then 1 else 0) + count_calls p evs')%nat
  end.

(** The module flag as line 93 reads it. *)
Definition included (a : gmap string value) : bool :=
  truthy (default (VBool false) (a !! "_KOYEB_ROUTER_INCLUDED")).

(** The outcomes of the calls that sit under an [except Exception]. *)
Definition guarded_outcomes (w : World) : list outcome :=
  [ TCPConnector_result w;
    match signature_result w with inl e => Some e | inr _ => None end;
    setattr_result w "bot";
    include_router_result w;
    setattr_result w "_KOYEB_ROUTER_INCLUDED";
    register_result w;
    cleanup_result w ].

(** The calls the source makes under an [except Exception]: lines 37, 44,
    96, 107 and 117. *)
Definition is_guarded_call (c : call) : bool :=
  match c with
  | TCPConnector _ | Signature | IncludeRouter _ _ | StartupRegister _ _
  | RunnerCleanup => true
  | _ => false
  end.

(** [m] lets through what [except Exception] does not catch: whenever a
    guarded call of a run of [m] raised an exception that is not an
    [Exception], the run made no call after it and raises that exception. *)
Definition lets_through {A} (m : M A) : Prop :=
  ∀ st, ∃ evs,
    trace (m st).2 = (trace st ++ evs)%list
    ∧ ∀ c e, (c, Some e) ∈ evs → is_guarded_call c = true →
             is_Exception e = false →
             (m st).1 = Raise e ∧ ∃ pre, evs = (pre ++ [(c, Some e)])%list.

(** A block under [except Exception] either completes, or lets through an
    exception of a guarded call that is not an [Exception]. *)
Definition completes_or_escapes (w : World) (r : result unit) : Prop :=
  r = Ret tt
  ∨ ∃ e, r = Raise e ∧ is_Exception e = false ∧ Some e ∈ guarded_outcomes w.

(** Lines 85-111 together: the bot patched in, the router included, the
    startup hook registered.  [a] and [a'] are the module's attributes before
    and after, [evs] the calls this made, [r] how it ended. *)
Record wired (w : World) (a a' : gmap string value) (evs : list (call * outcome))
    (r : result unit) : Prop := {
  wired_calls : Forall (λ ev, is_wiring_call ev.1 = true) evs;
  wired_attrs : ∀ k, k ≠ "bot" → k ≠ "_KOYEB_ROUTER_INCLUDED" → a' !! k = a !! k;
  wired_skip : included a = true →
               included a' = true ∧ count_calls is_IncludeRouter evs = 0%nat;
  wired_once : (count_calls is_IncludeRouter evs ≤ 1)%nat;
  wired_result : completes_or_escapes w r
}.

Definition result_of (o : outcome) : result unit :=
  match o with
  | None => Ret tt
  | Some e => Raise e
  end.

(** What leaves the [try/finally] of lines 113-119 when the polling call
    ended with [r]: [r] itself, unless the cleanup raised something that
    [except Exception] does not catch. *)
Definition after_cleanup (w : World) (r : result unit) : result unit :=
  match cleanup_result w with
  | Some e => if is_Exception e then r else Raise e
  | None => r
  end.

(** The two calls that bring the health listener up on [port]; [o] is how
    the site's start ended. *)
Definition listener_calls (port : Z) (o : outcome) : list (call * outcome) :=
  [(RunnerSetup health_app, None); (SiteStart "0.0.0.0" port, o)].

Section Outcome.

Variable env : gmap string string.
Variable w : World.
Variable st : state.

(** [_build_bot] ended with [r] after the calls [bevs]. *)
Definition built (r : result Bot) (bevs : list (call * outcome)) : Prop :=
  ∃ st1, _build_bot env w st = (r, st1)
         ∧ Forall (λ ev, is_build_call ev.1 = true) bevs.

(** What [int(os.getenv("PORT", "8000"))] does in this run. *)
Definition port_of_env : exn + Z := int_outcome w (getenv_default env "PORT" "8000").

(** Every way a run of [main] from [st] can end, by the place where it
    stopped: the result, the module's attributes at the end, and the calls
    the run made, in order. *)
Inductive main_outcome :
    result unit → gmap string value → list (call * outcome) → Prop :=
| build_failed e bevs :
    built (Raise e) bevs →
    main_outcome (Raise e) (attrs st) bevs
| bad_port bot bevs e :
    built (Ret bot) bevs →
    port_of_env = inl e →
    main_outcome (Raise e) (attrs st) bevs
| setup_failed bot bevs port e :
    built (Ret bot) bevs →
    port_of_env = inr port →
    setup_result w = Some e →
    main_outcome (Raise e) (attrs st)
      (bevs ++ [(RunnerSetup health_app, Some e)])
| start_failed bot bevs port e :
    built (Ret bot) bevs →
    port_of_env = inr port →
    setup_result w = None →
    start_result w port = Some e →
    main_outcome (Raise e) (attrs st) (bevs ++ listener_calls port (Some e))
| wiring_escaped bot bevs port e a' wevs :
    built (Ret bot) bevs →
    port_of_env = inr port →
    setup_result w = None →
    start_result w port = None →
    wired w (attrs st) a' wevs (Raise e) →
    main_outcome (Raise e) a' (bevs ++ listener_calls port None ++ wevs)
| no_dispatcher bot bevs port a' wevs :
    built (Ret bot) bevs →
    port_of_env = inr port →
    setup_result w = None →
    start_result w port = None →
    wired w (attrs st) a' wevs (Ret tt) →
    a' !! "dp" = None →
    main_outcome (after_cleanup w (Raise (AttributeError (no_attribute_message "dp")))) a'
      (bevs ++ listener_calls port None ++ wevs
            ++ [(RunnerCleanup, cleanup_result w)])
| polled bot bevs port a' wevs dp :
    built (Ret bot) bevs →
    port_of_env = inr port →
    setup_result w = None →
    start_result w port = None →
    wired w (attrs st) a' wevs (Ret tt) →
    a' !! "dp" = Some dp →
    main_outcome (after_cleanup w (result_of (start_polling_result w)))
      (polling_attrs w a')
      (bevs ++ listener_calls port None ++ wevs
            ++ [(StartPolling dp bot, start_polling_result w);
                (RunnerCleanup, cleanup_result w)]).

End Outcome.

(** The run of [main] from [st] starts the site on host 0.0.0.0 and [port],
    and starts no other site. *)
Definition site_started (env : gmap string string) (w : World) (st : state)
    (port : Z) : Prop :=
  ∃ evs, trace (main env w st).2 = (trace st ++ evs)%list
         ∧ (SiteStart "0.0.0.0" port, start_result w port) ∈ evs
         ∧ ∀ h p o, (SiteStart h p, o) ∈ evs → h = "0.0.0.0" ∧ p = port.

(** The external application, while it polls, does not clear the runner's
    flag on its module. *)
Definition keeps_flag (w : World) : Prop :=
  ∀ a, included a = true → included (polling_attrs w a) = true.

(** ** Sample inputs *)

(** A module as [bot.py] is expected to look: a token, a dispatcher, a
    router and a startup hook. *)
Definition bot_module : gmap string value :=
  <["API_TOKEN" := VStr "123456:module-token"]>
    (<["dp" := VObj "dp"]>
       (<["router" := VObj "router"]>
          (<["on_startup" := VObj "on_startup"]> ∅))).

(** The same module without any token. *)
Definition tokenless_module : gmap string value := delete "API_TOKEN" bot_module.

(** A world in which every call returns, the session accepts both optional
    parameters, and polling leaves the module's attributes alone. *)
Definition quiet_world : World := {|
  int_beyond := fun s => inl (InvalidLiteral s);
  TCPConnector_result := None;
  signature_result := inr ["self"; "proxy"; "connector"; "trust_env"];
  AiohttpSession_result := None;
  Bot_result := None;
  setup_result := None;
  start_result := fun _ => None;
  setattr_result := fun _ => None;
  include_router_result := None;
  register_result := None;
  start_polling_result := None;
  polling_attrs := fun a => a;
  cleanup_result := None
|}.

Definition fresh (a : gmap string value) : state := {| attrs := a; trace := [] |}.

(** The bot [_build_bot] returns in the quiet world from the sample module. *)
Definition module_bot : Bot :=
  {| bot_token := VStr "123456:module-token";
     bot_parse_mode := HTML;
     bot_session :=
       {| session_kwargs :=
            <["trust_env" := KBool true]>
              (<["connector" := KConnector {| family := AF_INET |}]> ∅) |} |}.

(** A world like the quiet one, where polling ends with [p] and the cleanup
    with [c]. *)
Definition ending_world (p c : outcome) : World := {|
  int_beyond := fun s => inl (InvalidLiteral s);
  TCPConnector_result := None;
  signature_result := inr ["self"; "proxy"; "connector"; "trust_env"];
  AiohttpSession_result := None;
  Bot_result := None;
  setup_result := None;
  start_result := fun _ => None;
  setattr_result := fun _ => None;
  include_router_result := None;
  register_result := None;
  start_polling_result := p;
  polling_attrs := fun a => a;
  cleanup_result := c
|}.

(** A world in which every guarded call raises an [Exception] and every
    other call returns. *)
Definition grudging_world : World := {|
  int_beyond := fun s => inl (InvalidLiteral s);
  TCPConnector_result := Some (OtherException "OSError");
  signature_result := inl (ValueError "no signature found");
  AiohttpSession_result := None;
  Bot_result := None;
  setup_result := None;
  start_result := fun _ => None;
  setattr_result := fun _ => Some (AttributeError "can't set attribute");
  include_router_result := Some (RuntimeError "Router is already attached");
  register_result := Some (OtherException "TypeError");
  start_polling_result := None;
  polling_attrs := fun a => a;
  cleanup_result := Some (OtherException "OSError")
|}.

(** A world like the quiet one, except that constructing the connector
    raises [e]. *)
Definition connector_raising_world (e : exn) : World := {|
  int_beyond := fun s => inl (InvalidLiteral s);
  TCPConnector_result := Some e;
  signature_result := inr ["self"; "proxy"; "connector"; "trust_env"];
  AiohttpSession_result := None;
  Bot_result := None;
  setup_result := None;
  start_result := fun _ => None;
  setattr_result := fun _ => None;
  include_router_result := None;
  register_result := None;
  start_polling_result := None;
  polling_attrs := fun a => a;
  cleanup_result := None
|}.

(** Polling raises and the cleanup raises an [Exception]. *)
Definition failing_poll_world : World :=
  ending_world (Some (RuntimeError "polling failed")) (Some (OtherException "OSError")).

(** Polling raises and the cleanup is cancelled while it is awaited. *)
Definition cancelled_cleanup_world : World :=
  ending_world (Some (RuntimeError "polling failed"))
    (Some (NonException "CancelledError")).

(** The process is interrupted while the connector is constructed. *)
Definition interrupted_world : World :=
  connector_raising_world (NonException "KeyboardInterrupt").

(** A signature that lists neither optional parameter. *)
Definition bare_signature_world : World := {|
  int_beyond := fun s => inl (InvalidLiteral s);
  TCPConnector_result := None;
  signature_result := inr ["self"; "proxy"; "limit"; "kwargs"];
  AiohttpSession_result := None;
  Bot_result := None;
  setup_result := None;
  start_result := fun _ => None;
  setattr_result := fun _ => None;
  include_router_result := None;
  register_result := None;
  start_polling_result := None;
  polling_attrs := fun a => a;
  cleanup_result := None
|}.

(** Two invocations of [main], both in the quiet world. *)
Definition two_quiet_runs : list (gmap string string * World) :=
  [(∅, quiet_world); (∅, quiet_world)].

(** ** Vocabulary of the further properties *)

Definition is_RunnerSetup (c : call) : bool :=
  match c with RunnerSetup _ => true | _ => false end.

Definition is_SiteStart (c : call) : bool :=
  match c with SiteStart _ _ => true | _ => false end.

Definition is_RunnerCleanup (c : call) : bool :=
  match c with RunnerCleanup => true | _ => false end.

Definition is_BotInit (c : call) : bool :=
  match c with BotInit _ _ _ => true | _ => false end.

(** The state once runner setup and site start have both returned. *)
Definition listening (port : Z) (st : state) : state :=
  log (SiteStart "0.0.0.0" port) None (log (RunnerSetup health_app) None st).

(** Every exception a guarded call raises in [w] is an [Exception]. *)
Definition swallowed (w : World) : Prop :=
  ∀ e, Some e ∈ guarded_outcomes w → is_Exception e = true.

(** A world like the quiet one, except that [include_router] raises [e]. *)
Definition include_raising_world (e : exn) : World := {|
  int_beyond := fun s => inl (InvalidLiteral s);
  TCPConnector_result := None;
  signature_result := inr ["self"; "proxy"; "connector"; "trust_env"];
  AiohttpSession_result := None;
  Bot_result := None;
  setup_result := None;
  start_result := fun _ => None;
  setattr_result := fun _ => None;
  include_router_result := Some e;
  register_result := None;
  start_polling_result := None;
  polling_attrs := fun a => a;
  cleanup_result := None
|}.

(** A world like the quiet one, except that assigning to the attribute
    [name] of the module raises [e]. *)
Definition setattr_raising_world (name : string) (e : exn) : World := {|
  int_beyond := fun s => inl (InvalidLiteral s);
  TCPConnector_result := None;
  signature_result := inr ["self"; "proxy"; "connector"; "trust_env"];
  AiohttpSession_result := None;
  Bot_result := None;
  setup_result := None;
  start_result := fun _ => None;
  setattr_result := fun k => if String.eqb k name then Some e else None;
  include_router_result := None;
  register_result := None;
  start_polling_result := None;
  polling_attrs := fun a => a;
  cleanup_result := None
|}.

(** A world like the quiet one, except that the site's start raises an
    OSError whatever the port (the address is in use, say). *)
Definition grudging_start_world : World := {|
  int_beyond := fun s => inl (InvalidLiteral s);
  TCPConnector_result := None;
  signature_result := inr ["self"; "proxy"; "connector"; "trust_env"];
  AiohttpSession_result := None;
  Bot_result := None;
  setup_result := None;
  start_result := fun _ => Some (OtherException "OSError");
  setattr_result := fun _ => None;
  include_router_result := None;
  register_result := None;
  start_polling_result := None;
  polling_attrs := fun a => a;
  cleanup_result := None
|}.

(** A world like the quiet one, except that the session constructor
    raises a TypeError. *)
Definition session_raising_world : World := {|
  int_beyond := fun s => inl (InvalidLiteral s);
  TCPConnector_result := None;
  signature_result := inr ["self"; "proxy"; "connector"; "trust_env"];
  AiohttpSession_result := Some (OtherException "TypeError");
  Bot_result := None;
  setup_result := None;
  start_result := fun _ => None;
  setattr_result := fun _ => None;
  include_router_result := None;
  register_result := None;
  start_polling_result := None;
  polling_attrs := fun a => a;
  cleanup_result := None
|}.

(** The sample module without a dispatcher. *)
Definition dispatcherless_module : gmap string value := delete "dp" bot_module.

(** * Proofs *)

(** ** The token ([_build_bot], lines 29-31) *)

Lemma truthy_VStr (s : string) : truthy (VStr s) = true ↔ s ≠ "".
Proof.
  simpl. destruct (String.eqb_spec s ""); simpl; split; congruence.
Qed.

(** What [resolve_token] hands on, by cases on the two sources. *)
Lemma resolve_token_env env st (s : string) :
  env !! "BOT_TOKEN" = Some s → s ≠ "" →
  resolve_token env st = (Ret (VStr s), st).
Proof.
  intros He Hs. unfold resolve_token, getenv. rewrite He.
  apply truthy_VStr in Hs. rewrite Hs. reflexivity.
Qed.

Lemma resolve_token_module env st :
  (env !! "BOT_TOKEN" = None ∨ env !! "BOT_TOKEN" = Some "") →
  resolve_token env st = (Ret (default VNone (attrs st !! "API_TOKEN")), st).
Proof.
  intros [He | He]; unfold resolve_token, getenv; rewrite He; reflexivity.
Qed.

(** Once a truthy token is in hand, it is the one given to [Bot]. *)
Lemma build_bot_uses env w st (t : value) :
  resolve_token env st = (Ret t, st) → truthy t = true →
  token_used env w st t.
Proof.
  intros Hr Ht. unfold token_used, _build_bot, bind. rewrite Hr, Ht. simpl.
  unfold build_connector, build_kwargs, signature_parameters, bind, ret,
    try_except, ext, log; simpl.
  destruct (TCPConnector_result w) as [e1 |]; simpl;
    [destruct (is_Exception e1); simpl |];
    try (destruct (signature_result w) as [e2 | params]; simpl;
         [destruct (is_Exception e2); simpl |]);
    try (destruct (AiohttpSession_result w) as [e3 |]; simpl);
    try (destruct (Bot_result w) as [e4 |]; simpl);
    (eexists; split; [rewrite <- ?(assoc_L (++)); reflexivity |]);
    (split; [intros t' pm s o Hin | intros b Hb; try discriminate;
                                     injection Hb as <-; reflexivity]);
    repeat (apply elem_of_cons in Hin as [Hin | Hin];
            [try discriminate; injection Hin; intros; congruence |]);
    apply elem_of_nil in Hin; contradiction.
Qed.

Lemma build_bot_no_token env w st :
  (env !! "BOT_TOKEN" = None ∨ env !! "BOT_TOKEN" = Some "") →
  truthy (default VNone (attrs st !! "API_TOKEN")) = false →
  _build_bot env w st = (Raise (RuntimeError no_token_message), st).
Proof.
  intros He Ha. unfold _build_bot, bind.
  rewrite (resolve_token_module env st He), Ha. reflexivity.
Qed.

(** When the library calls of [_build_bot] answer without an exception that
    escapes [except Exception], a bot comes back. *)
Lemma build_bot_returns env w st (t : value) :
  resolve_token env st = (Ret t, st) → truthy t = true →
  (∀ e, TCPConnector_result w = Some e → is_Exception e = true) →
  (∀ e, signature_result w = inl e → is_Exception e = true) →
  AiohttpSession_result w = None → Bot_result w = None →
  ∃ b st', _build_bot env w st = (Ret b, st') ∧ bot_token b = t
           ∧ attrs st' = attrs st.
Proof.
  intros Hr Ht Htcp Hsig Hses Hbot. unfold _build_bot, bind. rewrite Hr, Ht. simpl.
  unfold build_connector, build_kwargs, signature_parameters, bind, ret,
    try_except, ext, log; simpl.
  rewrite Hses, Hbot.
  destruct (TCPConnector_result w) as [e1 |]; simpl;
    [rewrite (Htcp e1 eq_refl); simpl |];
    (destruct (signature_result w) as [e2 | params]; simpl;
     [rewrite (Hsig e2 eq_refl); simpl |]);
    eexists _, _; repeat split.
Qed.

(** Once a truthy token is in hand, [_build_bot] goes on with it. *)
Lemma build_bot_governs env w st (t : value) :
  resolve_token env st = (Ret t, st) → truthy t = true →
  token_governs env w st t.
Proof.
  intros Hr Ht. unfold token_governs, _build_bot, bind. rewrite Hr, Ht. simpl.
  unfold build_connector, build_kwargs, signature_parameters, bind, ret,
    try_except, ext, log; simpl.
  destruct (TCPConnector_result w) as [e1 |] eqn:E1; simpl;
    [destruct (is_Exception e1) eqn:X1; simpl |];
    try (destruct (signature_result w) as [e2 | params] eqn:E2; simpl;
         [destruct (is_Exception e2) eqn:X2; simpl |]);
    try (destruct (AiohttpSession_result w) as [e3 |] eqn:E3; simpl);
    try (destruct (Bot_result w) as [e4 |] eqn:E4; simpl);
    rewrite <- ?(assoc_L (++)); simpl;
    (eexists; split; [reflexivity |]);
    (split;
     [intros t' pm s o Hin;
      repeat (apply elem_of_cons in Hin as [Hin | Hin];
              [try discriminate; injection Hin; intros; congruence |]);
      apply elem_of_nil in Hin; contradiction |]);
    (split; [intros b Hb; try discriminate; injection Hb as <-; reflexivity |]);
    intros Htcp Hsig Hses;
    try (rewrite (Htcp _ eq_refl) in X1; discriminate X1);
    try (rewrite (Hsig _ eq_refl) in X2; discriminate X2);
    try discriminate Hses;
    (split;
     [eexists; rewrite !elem_of_cons; auto 10
     | intros Hb; try discriminate Hb; eexists _, _; split; reflexivity]).
Qed.

(** C1: when no token is resolvable -- BOT_TOKEN is unset or empty, and the
    module has no API_TOKEN attribute or a falsy one -- [_build_bot] raises
    RuntimeError with its message and leaves the state, and so the history of
    calls, as it found it: no connector, session or Bot was constructed.
    Otherwise [_build_bot] gets past the check and goes on to the connector
    probe, and the token it works with -- the one given to [Bot(...)] and
    carried by the bot returned -- is BOT_TOKEN when that is set to a
    non-empty string, else the module's API_TOKEN. *)
Theorem build_bot_token_resolution (env : gmap string string) (w : World) (st : state) :
  ((env !! "BOT_TOKEN" = None ∨ env !! "BOT_TOKEN" = Some "") →
   (attrs st !! "API_TOKEN" = None
    ∨ ∃ v, attrs st !! "API_TOKEN" = Some v ∧ truthy v = false) →
   _build_bot env w st = (Raise (RuntimeError no_token_message), st))
  ∧ (∀ s, env !! "BOT_TOKEN" = Some s → s ≠ "" →
          token_governs env w st (VStr s))
  ∧ (∀ v, (env !! "BOT_TOKEN" = None ∨ env !! "BOT_TOKEN" = Some "") →
          attrs st !! "API_TOKEN" = Some v → truthy v = true →
          token_governs env w st v).
Proof.
  split; [| split].
  - intros He Ha. apply build_bot_no_token; [exact He |].
    destruct Ha as [-> | (v & -> & Hv)]; [reflexivity | exact Hv].
  - intros s He Hs. apply build_bot_governs.
    + apply resolve_token_env; assumption.
    + apply truthy_VStr; exact Hs.
  - intros v He Ha Hv. apply build_bot_governs; [| exact Hv].
    rewrite (resolve_token_module env st He), Ha. reflexivity.
Qed.

Lemma build_bot_token_resolution_witness :
  _build_bot ∅ quiet_world (fresh tokenless_module)
    = (Raise (RuntimeError no_token_message), fresh tokenless_module)
  ∧ token_governs {["BOT_TOKEN" := "42:env-token"]} quiet_world (fresh bot_module)
      (VStr "42:env-token")
  ∧ token_governs ∅ quiet_world (fresh bot_module) (VStr "123456:module-token").
Proof.
  split; [| split].
  - destruct (build_bot_token_resolution ∅ quiet_world (fresh tokenless_module))
      as (H & _ & _).
    apply H; left; vm_compute; reflexivity.
  - destruct (build_bot_token_resolution {["BOT_TOKEN" := "42:env-token"]}
                quiet_world (fresh bot_module)) as (_ & H & _).
    apply H; [vm_compute; reflexivity | intros E; discriminate E].
  - destruct (build_bot_token_resolution ∅ quiet_world (fresh bot_module))
      as (_ & _ & H).
    apply H; [left | |]; vm_compute; reflexivity.
Defined.

(** In the quiet world the bot built from the sample module carries the
    module's token, and with BOT_TOKEN set, that one. *)
Example build_bot_token_samples :
  (∃ b st', _build_bot ∅ quiet_world (fresh bot_module) = (Ret b, st')
            ∧ bot_token b = VStr "123456:module-token")
  ∧ (∃ b st', _build_bot {["BOT_TOKEN" := "42:env-token"]} quiet_world
                (fresh bot_module) = (Ret b, st')
              ∧ bot_token b = VStr "42:env-token").
Proof. split; eexists _, _; split; vm_compute; reflexivity. Qed.

(** C9: the resolution tests truthiness, not presence.  With BOT_TOKEN set
    to the empty string and a truthy API_TOKEN in the module, the module's
    token is the one used, and a bot carrying it is returned when the library
    constructors succeed; with BOT_TOKEN unset or empty and API_TOKEN present
    but empty or None, [_build_bot] raises the RuntimeError. *)
Theorem token_truthiness (env : gmap string string) (w : World) (st : state) :
  (∀ v, env !! "BOT_TOKEN" = Some "" → attrs st !! "API_TOKEN" = Some v →
        truthy v = true →
        token_used env w st v
        ∧ ((∀ e, TCPConnector_result w = Some e → is_Exception e = true) →
           (∀ e, signature_result w = inl e → is_Exception e = true) →
           AiohttpSession_result w = None → Bot_result w = None →
           ∃ b st', _build_bot env w st = (Ret b, st') ∧ bot_token b = v))
  ∧ ((env !! "BOT_TOKEN" = None ∨ env !! "BOT_TOKEN" = Some "") →
     (attrs st !! "API_TOKEN" = Some (VStr "")
      ∨ attrs st !! "API_TOKEN" = Some VNone) →
     _build_bot env w st = (Raise (RuntimeError no_token_message), st)).
Proof.
  split.
  - intros v He Ha Hv.
    assert (Hr : resolve_token env st = (Ret v, st)).
    { rewrite (resolve_token_module env st (or_intror He)), Ha. reflexivity. }
    split; [apply build_bot_uses; assumption |].
    intros Htcp Hsig Hses Hbot.
    destruct (build_bot_returns env w st v Hr Hv Htcp Hsig Hses Hbot)
      as (b & st' & Hb & Htok & _).
    exists b, st'. split; assumption.
  - intros He Ha. apply build_bot_no_token; [exact He |].
    destruct Ha as [-> | ->]; reflexivity.
Qed.

Lemma token_truthiness_witness :
  (token_used {["BOT_TOKEN" := ""]} quiet_world (fresh bot_module)
     (VStr "123456:module-token")
   ∧ ∃ b st', _build_bot {["BOT_TOKEN" := ""]} quiet_world (fresh bot_module)
                = (Ret b, st')
              ∧ bot_token b = VStr "123456:module-token")
  ∧ _build_bot {["BOT_TOKEN" := ""]} quiet_world
      (fresh (<["API_TOKEN" := VStr ""]> bot_module))
    = (Raise (RuntimeError no_token_message),
       fresh (<["API_TOKEN" := VStr ""]> bot_module)).
Proof.
  split.
  - destruct (token_truthiness {["BOT_TOKEN" := ""]} quiet_world (fresh bot_module))
      as [H _].
    destruct (H (VStr "123456:module-token")) as [Hu Hr];
      [vm_compute; reflexivity .. |].
    split; [exact Hu |].
    apply Hr; try reflexivity; intros e He; discriminate He.
  - destruct (token_truthiness {["BOT_TOKEN" := ""]} quiet_world
                (fresh (<["API_TOKEN" := VStr ""]> bot_module))) as [_ H].
    apply H; [right | left]; vm_compute; reflexivity.
Defined.

(** ** The session's keyword arguments ([_build_bot], lines 33-54) *)

Lemma resolve_token_total env st : ∃ t, resolve_token env st = (Ret t, st).
Proof.
  unfold resolve_token. destruct (truthy (getenv env "BOT_TOKEN")); eexists; reflexivity.
Qed.

Lemma fill_kwargs_connector connector params (v : kwarg) :
  fill_kwargs connector params ∅ !! "connector" = Some v
  ↔ ∃ c, connector = Some c ∧ v = KConnector c ∧ "connector" ∈ params.
Proof.
  unfold fill_kwargs.
  destruct connector as [c |]; repeat case_bool_decide; simplify_map_eq;
    split; try (intros [= <-]); try (intros (c' & ? & ? & ?)); simplify_eq;
    eauto; try done.
Qed.

Lemma fill_kwargs_trust_env connector params (v : kwarg) :
  fill_kwargs connector params ∅ !! "trust_env" = Some v
  ↔ v = KBool true ∧ "trust_env" ∈ params.
Proof.
  unfold fill_kwargs.
  destruct connector as [c |]; repeat case_bool_decide; simplify_map_eq;
    split; try (intros [= <-]); try (intros (? & ?)); simplify_eq;
    eauto; try done.
Qed.

Lemma fill_kwargs_other connector params (k : string) :
  k ≠ "connector" → k ≠ "trust_env" → fill_kwargs connector params ∅ !! k = None.
Proof.
  intros H1 H2. unfold fill_kwargs.
  destruct connector as [c |]; repeat case_bool_decide; simplify_map_eq; done.
Qed.

(** The one [AiohttpSession(...)] call of [_build_bot]: which connector was
    in hand, and where the keyword arguments came from. *)
Lemma build_bot_session env w st evs kw o :
  trace (_build_bot env w st).2 = (trace st ++ evs)%list →
  (AiohttpSession kw, o) ∈ evs →
  (∀ b, (_build_bot env w st).1 = Ret b → session_kwargs (bot_session b) = kw)
  ∧ ∃ connector,
      (connector = Some {| family := AF_INET |} ∧ TCPConnector_result w = None
       ∨ connector = None ∧ ∃ e, TCPConnector_result w = Some e)
      ∧ ((∃ params, signature_result w = inr params
                    ∧ kw = fill_kwargs connector params ∅)
         ∨ (∃ e, signature_result w = inl e) ∧ kw = ∅).
Proof.
  unfold _build_bot, bind.
  destruct (resolve_token_total env st) as [t ->].
  destruct (truthy t); simpl.
  2: { intros Htr Hin. rewrite <- (app_nil_r (trace st)) in Htr at 1.
       apply app_inv_head in Htr. subst evs. apply elem_of_nil in Hin. contradiction. }
  unfold build_connector, build_kwargs, signature_parameters, bind, ret,
    try_except, ext, log; simpl.
  destruct (TCPConnector_result w) as [e1 |]; simpl;
    [destruct (is_Exception e1); simpl |];
    try (destruct (signature_result w) as [e2 | params]; simpl;
         [destruct (is_Exception e2); simpl |]);
    try (destruct (AiohttpSession_result w) as [e3 |]; simpl);
    try (destruct (Bot_result w) as [e4 |]; simpl);
    rewrite <- ?(assoc_L (++)); intros Htr Hin;
    apply app_inv_head in Htr; subst evs;
    repeat (apply elem_of_cons in Hin as [Hin | Hin]; [try discriminate |]);
    try (apply elem_of_nil in Hin; contradiction);
    injection Hin as -> ->;
    (split; [intros b Hb; try discriminate; injection Hb as <-; reflexivity |]);
    eauto 10.
Qed.

(** C7: the session is constructed with exactly the optional settings the
    signature of [AiohttpSession.__init__] lists.  For the keyword arguments
    [kw] of the [AiohttpSession(...)] call that [_build_bot] makes (they are
    also those of the session in the bot it returns): "connector" is passed
    exactly when the TCPConnector was constructed and the signature lists
    "connector", and it is then the AF_INET connector; "trust_env" is passed
    exactly when the signature lists it, and it is then True; no other
    keyword is passed; and there are no keyword arguments at all when the
    introspection raised. *)
Theorem session_kwargs_probed (env : gmap string string) (w : World) (st : state)
    (evs : list (call * outcome)) (kw : gmap string kwarg) (o : outcome) :
  trace (_build_bot env w st).2 = (trace st ++ evs)%list →
  (AiohttpSession kw, o) ∈ evs →
  (∀ b, (_build_bot env w st).1 = Ret b → session_kwargs (bot_session b) = kw)
  ∧ (∀ v, kw !! "connector" = Some v
          ↔ v = KConnector {| family := AF_INET |}
            ∧ TCPConnector_result w = None
            ∧ ∃ params, signature_result w = inr params ∧ "connector" ∈ params)
  ∧ (∀ v, kw !! "trust_env" = Some v
          ↔ v = KBool true
            ∧ ∃ params, signature_result w = inr params ∧ "trust_env" ∈ params)
  ∧ (∀ k, k ≠ "connector" → k ≠ "trust_env" → kw !! k = None)
  ∧ ((∃ e, signature_result w = inl e) → kw = ∅).
Proof.
  intros Htr Hin.
  destruct (build_bot_session env w st evs kw o Htr Hin)
    as (Hbot & connector & Hconn & Hkw).
  split; [exact Hbot |].
  destruct Hkw as [(params & Hsig & ->) | ((e & Hsig) & ->)].
  - split; [| split; [| split]].
    + intros v. rewrite fill_kwargs_connector. split.
      * intros (c & Hc & -> & Hp).
        destruct Hconn as [[-> Htcp] | [-> _]]; [| discriminate].
        injection Hc as <-. eauto.
      * intros (-> & Htcp & params' & Hsig' & Hp).
        rewrite Hsig in Hsig'. injection Hsig' as <-.
        destruct Hconn as [[-> _] | [_ [e He]]]; [eauto | congruence].
    + intros v. rewrite fill_kwargs_trust_env. split.
      * intros [-> Hp]. eauto.
      * intros (-> & params' & Hsig' & Hp).
        rewrite Hsig in Hsig'. injection Hsig' as <-. auto.
    + intros k H1 H2. apply fill_kwargs_other; assumption.
    + intros [e He]. congruence.
  - split; [| split; [| split]].
    + intros v. rewrite lookup_empty. split; [discriminate |].
      intros (_ & _ & params & Hp & _). congruence.
    + intros v. rewrite lookup_empty. split; [discriminate |].
      intros (_ & params & Hp & _). congruence.
    + intros k _ _. apply lookup_empty.
    + reflexivity.
Qed.

Lemma session_kwargs_probed_witness :
  (∀ b, (_build_bot ∅ quiet_world (fresh bot_module)).1 = Ret b →
        session_kwargs (bot_session b) = session_kwargs (bot_session module_bot))
  ∧ (∀ v, session_kwargs (bot_session module_bot) !! "connector" = Some v
          ↔ v = KConnector {| family := AF_INET |}
            ∧ TCPConnector_result quiet_world = None
            ∧ ∃ params, signature_result quiet_world = inr params
                        ∧ "connector" ∈ params)
  ∧ (∀ v, session_kwargs (bot_session module_bot) !! "trust_env" = Some v
          ↔ v = KBool true
            ∧ ∃ params, signature_result quiet_world = inr params
                        ∧ "trust_env" ∈ params)
  ∧ (∀ k, k ≠ "connector" → k ≠ "trust_env" →
          session_kwargs (bot_session module_bot) !! k = None)
  ∧ ((∃ e, signature_result quiet_world = inl e) →
     session_kwargs (bot_session module_bot) = ∅).
Proof.
  apply (session_kwargs_probed ∅ quiet_world (fresh bot_module)
           (trace (_build_bot ∅ quiet_world (fresh bot_module)).2)
           (session_kwargs (bot_session module_bot)) None).
  - reflexivity.
  - vm_compute. do 2 apply list_elem_of_further. apply list_elem_of_here.
Defined.

(** With a signature that lists neither optional parameter, the session is
    built bare. *)
Example session_bare :
  ∃ b st', _build_bot ∅ bare_signature_world (fresh bot_module) = (Ret b, st')
           ∧ session_kwargs (bot_session b) = ∅.
Proof. eexists _, _. split; vm_compute; reflexivity. Qed.

(** ** What each block of [main] can do *)

Lemma count_calls_app p evs1 evs2 :
  count_calls p (evs1 ++ evs2)%list = (count_calls p evs1 + count_calls p evs2)%nat.
Proof.
  induction evs1 as [| [c o] evs1 IH]; simpl; [reflexivity |]. rewrite IH. lia.
Qed.

Lemma count_calls_none p q evs :
  Forall (λ ev, q ev.1 = true) evs → (∀ c, q c = true → p c = false) →
  count_calls p evs = 0%nat.
Proof.
  intros Hall Hpq. induction Hall as [| [c o] evs Hc _ IH]; simpl; [reflexivity |].
  rewrite (Hpq c Hc), IH. reflexivity.
Qed.

Ltac run_block :=
  unfold bind, ret, raise, try_except, try_finally, ext, getattr, getattr_default,
    hasattr, setattr, log; simpl.

(** One case split of a run: on the outcome of a call, on a lookup, or on
    whether a raised exception is an [Exception]. *)
Ltac case_outcome :=
  match goal with
  | H : is_Exception ?e = _ |- context [is_Exception ?e] => rewrite H; simpl
  | |- context [is_Exception ?e] => destruct (is_Exception e) eqn:?; simpl
  | |- context [match ?o with Some _ => _ | None => _ end] =>
      destruct o eqn:?; simpl
  end.

Ltac escapes e :=
  right; exists e; split; [reflexivity | split; [assumption |]];
  unfold guarded_outcomes; rewrite !elem_of_cons; auto 10.

Lemma build_bot_frame env w st r st' :
  _build_bot env w st = (r, st') →
  attrs st' = attrs st
  ∧ ∃ evs, trace st' = (trace st ++ evs)%list
           ∧ Forall (λ ev, is_build_call ev.1 = true) evs.
Proof.
  unfold _build_bot, bind.
  destruct (resolve_token_total env st) as [t ->].
  destruct (truthy t); simpl.
  2: { intros [= <- <-]. split; [reflexivity |]. exists [].
       rewrite app_nil_r. auto. }
  unfold build_connector, build_kwargs, signature_parameters, bind, ret,
    try_except, ext, log; simpl.
  destruct (TCPConnector_result w) as [e1 |]; simpl;
    [destruct (is_Exception e1); simpl |];
    try (destruct (signature_result w) as [e2 | params]; simpl;
         [destruct (is_Exception e2); simpl |]);
    try (destruct (AiohttpSession_result w) as [e3 |]; simpl);
    try (destruct (Bot_result w) as [e4 |]; simpl);
    intros [= <- <-]; simpl; (split; [reflexivity |]);
    rewrite <- ?(assoc_L (++)); eexists; (split; [reflexivity |]);
    repeat constructor.
Qed.

Lemma patch_bot_spec w bot st r st' :
  patch_bot w bot st = (r, st') →
  trace st' = trace st
  ∧ (∀ k, k ≠ "bot" → attrs st' !! k = attrs st !! k)
  ∧ completes_or_escapes w r.
Proof.
  unfold patch_bot. run_block.
  destruct (setattr_result w "bot") as [e |] eqn:He; simpl;
    [destruct (is_Exception e) eqn:Hx; simpl |];
    intros [= <- <-]; simpl; (split; [reflexivity |]); split;
    try (intros k Hk; rewrite ?lookup_insert_ne by congruence; reflexivity);
    try (left; reflexivity).
  escapes e.
Qed.

Lemma include_router_once_spec w st r st' :
  include_router_once w st = (r, st') →
  (∀ k, k ≠ "_KOYEB_ROUTER_INCLUDED" → attrs st' !! k = attrs st !! k)
  ∧ (included (attrs st) = true → st' = st ∧ r = Ret tt)
  ∧ (∃ evs, trace st' = (trace st ++ evs)%list
            ∧ Forall (λ ev, is_IncludeRouter ev.1 = true) evs
            ∧ (length evs ≤ 1)%nat)
  ∧ completes_or_escapes w r.
Proof.
  unfold include_router_once, included. run_block.
  destruct (truthy (default (VBool false) (attrs st !! "_KOYEB_ROUTER_INCLUDED")));
    simpl.
  { intros [= <- <-]. repeat split; try reflexivity; try (left; reflexivity).
    exists []. rewrite app_nil_r. repeat split; auto. }
  repeat case_outcome; intros [= <- <-]; simpl;
    (split; [intros k Hk; rewrite ?lookup_insert_ne by congruence; reflexivity |]);
    (split; [discriminate |]);
    (split;
     [first [ exists []; rewrite app_nil_r; repeat split; auto; fail
            | eexists [_]; repeat split; auto ] |]);
    try (left; reflexivity);
    match goal with |- completes_or_escapes _ (Raise ?e) => escapes e end.
Qed.

Lemma register_startup_spec w st r st' :
  register_startup w st = (r, st') →
  attrs st' = attrs st
  ∧ (∃ evs, trace st' = (trace st ++ evs)%list
            ∧ Forall (λ ev, is_StartupRegister ev.1 = true) evs)
  ∧ completes_or_escapes w r.
Proof.
  unfold register_startup. run_block.
  destruct (bool_decide (is_Some (attrs st !! "on_startup"))); simpl;
    repeat case_outcome; intros [= <- <-]; simpl;
    (split; [reflexivity |]);
    (split;
     [first [ exists []; rewrite app_nil_r; repeat split; auto; fail
            | eexists [_]; repeat split; auto ] |]);
    try (left; reflexivity);
    match goal with |- completes_or_escapes _ (Raise ?e) => escapes e end.
Qed.

Lemma count_calls_all p evs :
  Forall (λ ev, p ev.1 = true) evs → count_calls p evs = length evs.
Proof.
  intros Hall. induction Hall as [| [c o] evs Hc _ IH]; simpl; [reflexivity |].
  simpl in Hc. rewrite Hc, IH. reflexivity.
Qed.

Lemma wiring_spec w bot st r st' :
  (patch_bot w bot ;; include_router_once w ;; register_startup w) st = (r, st') →
  ∃ evs, trace st' = (trace st ++ evs)%list
         ∧ wired w (attrs st) (attrs st') evs r.
Proof.
  unfold bind at 1.
  destruct (patch_bot w bot st) as [r1 st1] eqn:E1.
  apply patch_bot_spec in E1 as (Ht1 & Ha1 & Hr1).
  assert (Hinc1 : included (attrs st1) = included (attrs st)).
  { unfold included. rewrite Ha1 by discriminate. reflexivity. }
  destruct r1 as [[] | e1]; cbn beta iota.
  2: { intros [= <- <-]. exists []. split; [rewrite app_nil_r; exact Ht1 |].
       split; simpl.
       - constructor.
       - intros k Hk _. apply Ha1, Hk.
       - intros Hi. rewrite Hinc1. auto.
       - lia.
       - exact Hr1. }
  unfold bind at 1.
  destruct (include_router_once w st1) as [r2 st2] eqn:E2.
  apply include_router_once_spec in E2
    as (Ha2 & Hskip & (evs2 & Ht2 & Hall2 & Hlen2) & Hr2).
  assert (Hw2 : Forall (λ ev : call * outcome, is_wiring_call ev.1 = true) evs2).
  { eapply Forall_impl; [exact Hall2 |]. intros [[] o]; simpl; congruence. }
  assert (Hskip2 : included (attrs st) = true →
                   included (attrs st2) = true
                   ∧ count_calls is_IncludeRouter evs2 = 0%nat).
  { intros Hi. rewrite <- Hinc1 in Hi. destruct (Hskip Hi) as [-> _].
    split; [exact Hi |].
    rewrite <- (app_nil_r (trace st1)) in Ht2 at 1.
    apply app_inv_head in Ht2. subst evs2. reflexivity. }
  assert (Hcnt2 : (count_calls is_IncludeRouter evs2 ≤ 1)%nat).
  { rewrite (count_calls_all _ _ Hall2). exact Hlen2. }
  destruct r2 as [[] | e2]; cbn beta iota.
  2: { intros [= <- <-]. exists evs2. split; [rewrite Ht2, Ht1; reflexivity |].
       split.
       - exact Hw2.
       - intros k Hk1 Hk2. rewrite Ha2, Ha1 by assumption. reflexivity.
       - exact Hskip2.
       - exact Hcnt2.
       - exact Hr2. }
  intros E3. apply register_startup_spec in E3 as (Ha3 & (evs3 & Ht3 & Hall3) & Hr3).
  assert (Hno3 : count_calls is_IncludeRouter evs3 = 0%nat).
  { apply (count_calls_none _ _ _ Hall3). intros []; simpl; congruence. }
  exists (evs2 ++ evs3)%list.
  split; [rewrite Ht3, Ht2, Ht1, (assoc_L (++)); reflexivity |].
  split.
  - apply Forall_app. split; [exact Hw2 |].
    eapply Forall_impl; [exact Hall3 |]. intros [[] o]; simpl; congruence.
  - intros k Hk1 Hk2. rewrite Ha3, Ha2, Ha1 by assumption. reflexivity.
  - intros Hi. destruct (Hskip2 Hi) as [Hi2 H0]. rewrite Ha3.
    split; [exact Hi2 |]. rewrite count_calls_app, H0, Hno3. reflexivity.
  - rewrite count_calls_app, Hno3. lia.
  - exact Hr3.
Qed.

Lemma finale_spec w bot st r st' :
  try_finally (start_polling w bot) (cleanup w) st = (r, st') →
  match attrs st !! "dp" with
  | None =>
      attrs st' = attrs st
      ∧ trace st' = (trace st ++ [(RunnerCleanup, cleanup_result w)])%list
      ∧ r = after_cleanup w (Raise (AttributeError (no_attribute_message "dp")))
  | Some dp =>
      attrs st' = polling_attrs w (attrs st)
      ∧ trace st' = (trace st ++ [(StartPolling dp bot, start_polling_result w);
                                  (RunnerCleanup, cleanup_result w)])%list
      ∧ r = after_cleanup w (result_of (start_polling_result w))
  end.
Proof.
  unfold start_polling, cleanup, after_cleanup, result_of. run_block.
  destruct (attrs st !! "dp") as [dp |]; simpl;
    repeat case_outcome; intros [= <- <-]; simpl;
    rewrite <- ?(assoc_L (++)); auto.
Qed.

(** ** Every run of [main] ends in one of seven ways *)

(** Whatever follows the wiring runs after it, from the state it left. *)
Lemma wiring_then {A} w bot (k : M A) (st : state) :
  (patch_bot w bot ;; include_router_once w ;; register_startup w ;; k) st
  = match (patch_bot w bot ;; include_router_once w ;; register_startup w) st with
    | (Ret _, st2) => k st2
    | (Raise e, st2) => (Raise e, st2)
    end.
Proof.
  unfold bind.
  destruct (patch_bot w bot st) as [[[] | e1] st1]; [| reflexivity].
  destruct (include_router_once w st1) as [[[] | e2] st2]; [| reflexivity].
  destruct (register_startup w st2) as [[[] | e3] st3]; reflexivity.
Qed.

(** [main] always ends in one of these ways. *)
Lemma main_inv env w st r st' :
  main env w st = (r, st') →
  ∃ evs, trace st' = (trace st ++ evs)%list ∧ main_outcome env w st r (attrs st') evs.
Proof.
  unfold main. unfold bind at 1.
  destruct (_build_bot env w st) as [rb st1] eqn:Eb.
  destruct (build_bot_frame _ _ _ _ _ Eb) as (Ha1 & bevs & Ht1 & Hb).
  assert (Hbuilt : built env w st rb bevs) by (exists st1; auto).
  destruct rb as [bot | e]; cbn beta iota.
  2: { intros [= <- <-]. exists bevs. rewrite Ha1. split; [exact Ht1 |].
       apply build_failed, Hbuilt. }
  unfold bind at 1, int.
  destruct (int_outcome w (getenv_default env "PORT" "8000")) as [e | port] eqn:Ep.
  { intros [= <- <-]. exists bevs. rewrite Ha1. split; [exact Ht1 |].
    eapply bad_port; eassumption. }
  unfold ret at 1. unfold bind at 1, ext at 1.
  destruct (setup_result w) as [e |] eqn:Es; cbn beta iota.
  { intros [= <- <-]. eexists. simpl. rewrite Ha1, Ht1, <- (assoc_L (++)).
    split; [reflexivity |]. eapply setup_failed; eassumption. }
  unfold bind at 1, ext at 1.
  destruct (start_result w port) as [e |] eqn:Et; cbn beta iota.
  { intros [= <- <-]. eexists. simpl. rewrite Ha1, Ht1, <- !(assoc_L (++)).
    split; [reflexivity |]. eapply start_failed; eassumption. }
  rewrite wiring_then.
  destruct ((patch_bot w bot ;; include_router_once w ;; register_startup w)
              (log (SiteStart "0.0.0.0" port) None
                 (log (RunnerSetup health_app) None st1)))
    as [[[] | e] st2] eqn:Ew;
    apply wiring_spec in Ew as (wevs & Ht2 & Hw); simpl in Ht2, Hw;
    rewrite Ha1 in Hw; rewrite Ht1, <- !(assoc_L (++)) in Ht2.
  2: { intros [= <- <-]. eexists. split; [exact Ht2 |].
       eapply wiring_escaped; eassumption. }
  intros Ef. apply finale_spec in Ef.
  destruct (attrs st2 !! "dp") as [dp |] eqn:Edp;
    destruct Ef as (Ha & Ht & ->); rewrite Ht2, <- !(assoc_L (++)) in Ht;
    (eexists; split; [exact Ht |]); rewrite Ha.
  - eapply polled; eassumption.
  - eapply no_dispatcher; eassumption.
Qed.

(** After the listener is up, [main] is the wiring followed by the polling
    under its [finally]. *)
Lemma main_after_listener env w st bot st1 port :
  _build_bot env w st = (Ret bot, st1) →
  port_of_env env w = inr port →
  setup_result w = None → start_result w port = None →
  main env w st
  = (patch_bot w bot ;; include_router_once w ;; register_startup w ;;
     try_finally (start_polling w bot) (cleanup w)) (listening port st1).
Proof.
  intros Eb Hp Hs Hst. unfold main. unfold bind at 1. rewrite Eb.
  unfold bind at 1, int. unfold port_of_env in Hp. rewrite Hp.
  unfold ret at 1. unfold bind at 1, ext at 1. rewrite Hs. cbn beta iota.
  unfold bind at 1, ext at 1. rewrite Hst. reflexivity.
Qed.

(** ** Reading the calls of a run *)

Lemma kind_of_member (q : call → bool) (evs : list (call * outcome)) c o :
  Forall (λ ev, q ev.1 = true) evs → (c, o) ∈ evs → q c = true.
Proof.
  intros Hall Hin. rewrite Forall_forall in Hall. exact (Hall (c, o) Hin).
Qed.

(** The calls of a run, given its final state. *)
Lemma main_events env w st :
  ∃ evs, trace (main env w st).2 = (trace st ++ evs)%list
         ∧ main_outcome env w st (main env w st).1 (attrs (main env w st).2) evs.
Proof.
  apply main_inv. destruct (main env w st); reflexivity.
Qed.

(** Splitting a membership in a run's calls into the run's segments. *)
Ltac split_member H :=
  unfold listener_calls in H;
  rewrite ?elem_of_app, ?elem_of_cons, ?elem_of_nil in H;
  repeat match type of H with
         | _ ∨ _ => destruct H as [H | H]
         | False => contradiction
         end.

Ltac wrong_kind H :=
  match goal with
  | Hall : Forall (λ ev, ?q ev.1 = true) ?evs |- _ =>
      match type of H with
      | (?c, ?o) ∈ evs =>
          let K := fresh in
          pose proof (kind_of_member q evs c o Hall H) as K; simpl in K;
          discriminate K
      end
  end.

(** ** The listening port (lines 70, 80-83) *)

Lemma site_started_on env w st bot st1 port :
  _build_bot env w st = (Ret bot, st1) → setup_result w = None →
  port_of_env env w = inr port →
  site_started env w st port.
Proof.
  intros Eb Es Ep.
  assert (Hb : ∀ r bevs, built env w st r bevs → r = Ret bot).
  { intros r bevs (st2 & E2 & _). congruence. }
  destruct (main_events env w st) as (evs & Ht & Ho).
  exists evs. split; [exact Ht |].
  destruct Ho as [e bevs Hbuilt | b bevs ep Hbuilt Hp | b bevs p e Hbuilt Hp Hs
                 | b bevs p e Hbuilt Hp Hs Hst
                 | b bevs p e a' wevs Hbuilt Hp Hs Hst Hw
                 | b bevs p a' wevs Hbuilt Hp Hs Hst Hw Hdp
                 | b bevs p a' wevs dp Hbuilt Hp Hs Hst Hw Hdp];
    try (apply Hb in Hbuilt; discriminate Hbuilt);
    try congruence;
    destruct Hbuilt as (_ & _ & Hall); try destruct Hw as [Hwall _ _ _ _];
    assert (p = port) as -> by congruence;
    (split;
     [ rewrite ?Hst; unfold listener_calls;
       rewrite ?elem_of_app, ?elem_of_cons; auto 10
     | intros h q o Hin; split_member Hin; try wrong_kind Hin;
       try discriminate Hin; injection Hin; intros; subst; auto ]).
Qed.

(** C3: once the bot is built and the runner set up, the health listener's
    site is started on 0.0.0.0 at the port the variable PORT gives -- the
    integer that [int] returns for its value -- and at 8000 when PORT is
    unset; the start's outcome is the world's answer for that port, and the
    run starts no site on any other port.  In particular, for a value of
    PORT that [py_int] reads, the port is that reading, whatever the world. *)
Theorem listener_port (env : gmap string string) (w : World) (st : state)
    (bot : Bot) (st1 : state) :
  _build_bot env w st = (Ret bot, st1) → setup_result w = None →
  (env !! "PORT" = None → site_started env w st 8000)
  ∧ (∀ s n, env !! "PORT" = Some s → int_outcome w s = inr n →
            site_started env w st n)
  ∧ (∀ s n, env !! "PORT" = Some s → py_int s = Reads n →
            site_started env w st n).
Proof.
  intros Eb Es. split; [| split].
  - intros Hp. apply (site_started_on env w st bot st1); auto.
    unfold port_of_env, getenv_default. rewrite Hp. reflexivity.
  - intros s n Hp Hn. apply (site_started_on env w st bot st1); auto.
    unfold port_of_env, getenv_default. rewrite Hp. exact Hn.
  - intros s n Hp Hn. apply (site_started_on env w st bot st1); auto.
    unfold port_of_env, getenv_default, int_outcome. rewrite Hp. simpl.
    rewrite Hn. reflexivity.
Qed.

Lemma listener_port_witness :
  site_started ∅ quiet_world (fresh bot_module) 8000
  ∧ site_started {["PORT" := "8080"]} quiet_world (fresh bot_module) 8080
  ∧ site_started {["PORT" := " +8_081 "]} quiet_world (fresh bot_module) 8081.
Proof.
  split; [| split].
  - destruct (_build_bot ∅ quiet_world (fresh bot_module)) as [[bot | e] st1] eqn:E;
      [| vm_compute in E; discriminate E].
    destruct (listener_port ∅ quiet_world (fresh bot_module) bot st1 E eq_refl)
      as (H & _ & _).
    apply H. vm_compute. reflexivity.
  - destruct (_build_bot {["PORT" := "8080"]} quiet_world (fresh bot_module))
      as [[bot | e] st1] eqn:E; [| vm_compute in E; discriminate E].
    destruct (listener_port {["PORT" := "8080"]} quiet_world (fresh bot_module)
                bot st1 E eq_refl) as (_ & H & _).
    apply (H "8080"); vm_compute; reflexivity.
  - destruct (_build_bot {["PORT" := " +8_081 "]} quiet_world (fresh bot_module))
      as [[bot | e] st1] eqn:E; [| vm_compute in E; discriminate E].
    destruct (listener_port {["PORT" := " +8_081 "]} quiet_world (fresh bot_module)
                bot st1 E eq_refl) as (_ & _ & H).
    apply (H " +8_081 "); vm_compute; reflexivity.
Defined.

(** A PORT that is set but is not an integer literal -- the empty string
    included -- ends the run with the ValueError of [int] before any listener
    exists. *)
Example port_empty_string :
  (main {["PORT" := ""]} quiet_world (fresh bot_module)).1
  = Raise (InvalidLiteral "").
Proof. vm_compute. reflexivity. Qed.

(** What [int] reads on a few strings: white space and a sign around the
    digits, single underscores between them; the separator characters 28 to
    31 are not white space for it. *)
Example py_int_samples :
  py_int "8000" = Reads 8000
  ∧ py_int " +8_080 " = Reads 8080
  ∧ py_int "-1" = Reads (-1)
  ∧ py_int "007" = Reads 7
  ∧ py_int "" = Rejects
  ∧ py_int "80a" = Rejects
  ∧ py_int "8__0" = Rejects
  ∧ py_int "_8" = Rejects
  ∧ py_int "8 0" = Rejects
  ∧ py_int "0x10" = Rejects
  ∧ py_int (String (ascii_of_nat 28) "8000") = Rejects
  ∧ py_int (String (ascii_of_nat 160) "8000") = Beyond.
Proof. vm_compute. repeat split. Qed.

Lemma main_events_unique env w st evs :
  trace (main env w st).2 = (trace st ++ evs)%list →
  main_outcome env w st (main env w st).1 (attrs (main env w st).2) evs.
Proof.
  intros Ht. destruct (main_events env w st) as (evs' & Ht' & Ho).
  rewrite Ht in Ht'. apply app_inv_head in Ht'. subst evs'. exact Ho.
Qed.

(** The application a run of [main] sets the runner up with is the one
    built in lines 72-78. *)
Lemma runner_serves_health_app env w st evs (a : Application) (o : outcome) :
  trace (main env w st).2 = (trace st ++ evs)%list →
  (RunnerSetup a, o) ∈ evs → a = health_app.
Proof.
  intros Ht Hin. apply main_events_unique in Ht.
  destruct Ht as [e bevs Hbuilt | b bevs ep Hbuilt Hp | b bevs p e Hbuilt Hp Hs
                 | b bevs p e Hbuilt Hp Hs Hst
                 | b bevs p e a' wevs Hbuilt Hp Hs Hst Hw
                 | b bevs p a' wevs Hbuilt Hp Hs Hst Hw Hdp
                 | b bevs p a' wevs dp' Hbuilt Hp Hs Hst Hw Hdp];
    destruct Hbuilt as (_ & _ & Hall); try destruct Hw as [Hwall _ _ _ _];
    split_member Hin; try wrong_kind Hin; try discriminate Hin;
    injection Hin; intros; subst; reflexivity.
Qed.

(** ** The health endpoint (lines 72-78) *)

(** C2: a GET request to / and a GET request to /health are both answered
    with status 200 and body "ok", and both routes resolve to the one handler
    [_health]; the application answering so is the one every run of [main]
    sets the health runner up with. *)
Theorem health_routes_ok (r : Request) :
  req_method r = "GET" → (req_path r = "/" ∨ req_path r = "/health") →
  serve health_app r = {| status := 200; text := "ok" |}
  ∧ resolve health_app "GET" "/" = Some _health
  ∧ resolve health_app "GET" "/health" = Some _health
  ∧ ∀ env w st evs a o,
      trace (main env w st).2 = (trace st ++ evs)%list →
      (RunnerSetup a, o) ∈ evs → a = health_app.
Proof.
  intros Hm Hp. split; [| split; [reflexivity | split; [reflexivity |]]].
  - unfold serve. rewrite Hm. destruct Hp as [-> | ->]; reflexivity.
  - intros env w st evs a o. apply runner_serves_health_app.
Qed.

Lemma health_routes_ok_witness :
  serve health_app {| req_method := "GET"; req_path := "/health" |}
    = {| status := 200; text := "ok" |}
  ∧ resolve health_app "GET" "/" = Some _health
  ∧ resolve health_app "GET" "/health" = Some _health
  ∧ ∀ env w st evs a o,
      trace (main env w st).2 = (trace st ++ evs)%list →
      (RunnerSetup a, o) ∈ evs → a = health_app.
Proof.
  apply (health_routes_ok {| req_method := "GET"; req_path := "/health" |});
    [reflexivity | right; reflexivity].
Defined.

(** Any other path is not served by the handler. *)
Example health_other_path :
  status (serve health_app {| req_method := "GET"; req_path := "/metrics" |}) = 404.
Proof. reflexivity. Qed.

(** [add_get] registers the handler for HEAD too, answered without a body;
    any other method on a registered path is answered 405. *)
Example health_other_method :
  serve health_app {| req_method := "HEAD"; req_path := "/" |}
    = {| status := 200; text := "" |}
  ∧ status (serve health_app {| req_method := "POST"; req_path := "/health" |})
    = 405.
Proof. split; reflexivity. Qed.

(** ** Listener, polling, cleanup (lines 80-83, 113-119) *)

(** A polling call in a run's calls fixes the whole run: it is a [polled]
    run. *)
Lemma polling_call_inv env w st evs dp bot o :
  trace (main env w st).2 = (trace st ++ evs)%list →
  (StartPolling dp bot, o) ∈ evs →
  o = start_polling_result w
  ∧ (main env w st).1 = after_cleanup w (result_of (start_polling_result w))
  ∧ ∃ bevs port wevs,
      evs = (bevs ++ listener_calls port None ++ wevs
                  ++ [(StartPolling dp bot, o);
                      (RunnerCleanup, cleanup_result w)])%list
      ∧ Forall (λ ev, is_build_call ev.1 = true) bevs
      ∧ Forall (λ ev, is_wiring_call ev.1 = true) wevs.
Proof.
  intros Ht Hin. apply main_events_unique in Ht.
  destruct Ht as [e bevs Hbuilt | b bevs ep Hbuilt Hp | b bevs p e Hbuilt Hp Hs
                 | b bevs p e Hbuilt Hp Hs Hst
                 | b bevs p e a' wevs Hbuilt Hp Hs Hst Hw
                 | b bevs p a' wevs Hbuilt Hp Hs Hst Hw Hdp
                 | b bevs p a' wevs dp' Hbuilt Hp Hs Hst Hw Hdp];
    destruct Hbuilt as (_ & _ & Hall); try destruct Hw as [Hwall _ _ _ _];
    split_member Hin; try wrong_kind Hin; try discriminate Hin.
  injection Hin as -> -> ->.
  split; [reflexivity |]. split; [reflexivity |].
  exists bevs, p, wevs. auto.
Qed.

(** C8: in every run of [main], a polling call is preceded by the runner's
    setup and the site's start, both successful, and is followed at once --
    whether it returned or raised -- by the runner's cleanup, which is the
    last call of the run.  Before the listener only the calls that build the
    bot are made, between listener and polling only the wiring calls. *)
Theorem listener_brackets_polling (env : gmap string string) (w : World)
    (st : state) (evs : list (call * outcome)) (dp : value) (bot : Bot)
    (o : outcome) :
  trace (main env w st).2 = (trace st ++ evs)%list →
  (StartPolling dp bot, o) ∈ evs →
  ∃ bevs port wevs,
    evs = (bevs
           ++ [(RunnerSetup health_app, None); (SiteStart "0.0.0.0" port, None)]
           ++ wevs
           ++ [(StartPolling dp bot, o); (RunnerCleanup, cleanup_result w)])%list
    ∧ Forall (λ ev, is_build_call ev.1 = true) bevs
    ∧ Forall (λ ev, is_wiring_call ev.1 = true) wevs.
Proof.
  intros Ht Hin.
  destruct (polling_call_inv env w st evs dp bot o Ht Hin) as (_ & _ & H).
  exact H.
Qed.

Lemma listener_brackets_polling_witness :
  ∃ bevs port wevs,
    trace (main ∅ quiet_world (fresh bot_module)).2
    = (bevs
       ++ [(RunnerSetup health_app, None); (SiteStart "0.0.0.0" port, None)]
       ++ wevs
       ++ [(StartPolling (VObj "dp") module_bot, None);
           (RunnerCleanup, cleanup_result quiet_world)])%list
    ∧ Forall (λ ev, is_build_call ev.1 = true) bevs
    ∧ Forall (λ ev, is_wiring_call ev.1 = true) wevs.
Proof.
  apply (listener_brackets_polling ∅ quiet_world (fresh bot_module)).
  - reflexivity.
  - vm_compute. do 8 apply list_elem_of_further. apply list_elem_of_here.
Defined.

(** C10, as amended: when the polling call raises [e], the cleanup of the
    runner is still called, right after it and as the last call of the run;
    [main] then raises [e] if the cleanup returned or raised an [Exception]
    (which the handler swallows), and raises the cleanup's exception instead
    if that one is not an [Exception]. *)
Theorem polling_exception_propagates (env : gmap string string) (w : World)
    (st : state) (evs : list (call * outcome)) (dp : value) (bot : Bot) (e : exn) :
  trace (main env w st).2 = (trace st ++ evs)%list →
  (StartPolling dp bot, Some e) ∈ evs →
  (∃ pre, evs = (pre ++ [(StartPolling dp bot, Some e);
                         (RunnerCleanup, cleanup_result w)])%list)
  ∧ ((cleanup_result w = None
      ∨ ∃ e', cleanup_result w = Some e' ∧ is_Exception e' = true) →
     (main env w st).1 = Raise e)
  ∧ (∀ e', cleanup_result w = Some e' → is_Exception e' = false →
           (main env w st).1 = Raise e').
Proof.
  intros Ht Hin.
  destruct (polling_call_inv env w st evs dp bot (Some e) Ht Hin)
    as (Ho & Hr & bevs & port & wevs & -> & _).
  rewrite Hr, <- Ho. unfold after_cleanup. simpl.
  split; [| split].
  - exists (bevs ++ listener_calls port None ++ wevs)%list.
    rewrite <- !(assoc_L (++)). reflexivity.
  - intros [-> | (e' & -> & ->)]; reflexivity.
  - intros e' -> ->. reflexivity.
Qed.

Lemma polling_exception_propagates_witness :
  (∃ pre, trace (main ∅ failing_poll_world (fresh bot_module)).2
          = (pre ++ [(StartPolling (VObj "dp") module_bot,
                      Some (RuntimeError "polling failed"));
                     (RunnerCleanup, cleanup_result failing_poll_world)])%list)
  ∧ (main ∅ failing_poll_world (fresh bot_module)).1
    = Raise (RuntimeError "polling failed").
Proof.
  destruct (polling_exception_propagates ∅ failing_poll_world (fresh bot_module)
              (trace (main ∅ failing_poll_world (fresh bot_module)).2)
              (VObj "dp") module_bot (RuntimeError "polling failed"))
    as (Hpre & Hswallowed & _).
  - reflexivity.
  - vm_compute. do 8 apply list_elem_of_further. apply list_elem_of_here.
  - split; [exact Hpre |]. apply Hswallowed. right.
    exists (OtherException "OSError"). split; reflexivity.
Defined.

(** C10 as worded fails when the cleanup is cut short by an exception outside
    [Exception]: polling raised a RuntimeError, the cleanup was called and
    raised CancelledError, and that is what leaves [main], not the polling
    exception. *)
Lemma polling_exception_replaced :
  (StartPolling (VObj "dp") module_bot, Some (RuntimeError "polling failed"))
    ∈ trace (main ∅ cancelled_cleanup_world (fresh bot_module)).2
  ∧ (RunnerCleanup, Some (NonException "CancelledError"))
    ∈ trace (main ∅ cancelled_cleanup_world (fresh bot_module)).2
  ∧ (main ∅ cancelled_cleanup_world (fresh bot_module)).1
    = Raise (NonException "CancelledError")
  ∧ (main ∅ cancelled_cleanup_world (fresh bot_module)).1
    ≠ Raise (RuntimeError "polling failed").
Proof.
  split; [| split; [| split]].
  - vm_compute. do 8 apply list_elem_of_further. apply list_elem_of_here.
  - vm_compute. do 9 apply list_elem_of_further. apply list_elem_of_here.
  - vm_compute. reflexivity.
  - vm_compute. discriminate.
Qed.

(** ** Swallowed failures (lines 34-52, 85-111, 115-119) *)

Lemma resolve_token_or env st :
  resolve_token env st
  = (Ret (py_or (getenv env "BOT_TOKEN") (default VNone (attrs st !! "API_TOKEN"))),
     st).
Proof.
  unfold resolve_token, py_or, getattr_default, ret.
  destruct (truthy (getenv env "BOT_TOKEN")); reflexivity.
Qed.

(** *** What [except Exception] lets through *)

Lemma lets_through_silent {A} (m : M A) :
  (∀ st, trace (m st).2 = trace st) → lets_through m.
Proof.
  intros H st. exists []. rewrite app_nil_r. split; [apply H |].
  intros c e Hin. apply elem_of_nil in Hin. contradiction.
Qed.

Lemma lets_through_ext c o : lets_through (ext c o).
Proof.
  intros st. exists [(c, o)]. split; [reflexivity |].
  intros c' e Hin _ _. rewrite elem_of_cons, elem_of_nil in Hin.
  destruct Hin as [[= -> <-] | []]. simpl.
  split; [reflexivity |]. exists []. reflexivity.
Qed.

Lemma lets_through_bind {A B} (m : M A) (k : A → M B) :
  lets_through m → (∀ a, lets_through (k a)) → lets_through (bind m k).
Proof.
  intros Hm Hk st. destruct (Hm st) as (evs1 & Ht1 & H1). unfold bind.
  destruct (m st) as [[a | e1] st1]; simpl in *.
  - destruct (Hk a st1) as (evs2 & Ht2 & H2).
    exists (evs1 ++ evs2)%list.
    split; [rewrite Ht2, Ht1, (assoc_L (++)); reflexivity |].
    intros c e Hin Hg He. apply elem_of_app in Hin as [Hin | Hin].
    + destruct (H1 c e Hin Hg He) as [Hr _]. discriminate Hr.
    + destruct (H2 c e Hin Hg He) as [Hr [pre ->]]. split; [exact Hr |].
      exists (evs1 ++ pre)%list. rewrite (assoc_L (++)). reflexivity.
  - exists evs1. split; [exact Ht1 |]. intros c e Hin Hg He.
    destruct (H1 c e Hin Hg He) as [[= ->] Hpre]. auto.
Qed.

(** The handler of the source's five [except Exception] clauses makes no
    call; it runs only for an [Exception]. *)
Lemma lets_through_try_except {A} (body : M A) (x : A) :
  lets_through body → lets_through (try_except body (ret x)).
Proof.
  intros Hb st. destruct (Hb st) as (evs & Ht & H). unfold try_except, ret.
  destruct (body st) as [[a | e0] st1]; simpl in *.
  - exists evs. split; [exact Ht | exact H].
  - destruct (is_Exception e0) eqn:He0; simpl.
    + exists evs. split; [exact Ht |]. intros c e Hin Hg He.
      destruct (H c e Hin Hg He) as [[= ->] _]. congruence.
    + exists evs. split; [exact Ht | exact H].
Qed.

Lemma lets_through_signature w : lets_through (signature_parameters w).
Proof.
  intros st. unfold signature_parameters.
  destruct (signature_result w) as [e0 | params]; simpl.
  - exists [(Signature, Some e0)]. split; [reflexivity |].
    intros c e Hin _ _. rewrite elem_of_cons, elem_of_nil in Hin.
    destruct Hin as [[= -> ->] | []].
    split; [reflexivity |]. exists []. reflexivity.
  - exists [(Signature, None)]. split; [reflexivity |].
    intros c e Hin _ _. rewrite elem_of_cons, elem_of_nil in Hin.
    destruct Hin as [[=] | []].
Qed.

Ltac silent :=
  apply lets_through_silent; intros ?;
  unfold resolve_token, int, getattr, getattr_default, hasattr, setattr, ret, raise;
  repeat match goal with
         | |- context [match ?x with _ => _ end] => destruct x
         end;
  reflexivity.

Ltac through :=
  repeat first [ apply lets_through_bind; [| intros ?]
               | apply lets_through_try_except
               | apply lets_through_ext
               | apply lets_through_signature
               | silent ].

Lemma lets_through_build_bot env w : lets_through (_build_bot env w).
Proof.
  unfold _build_bot, build_connector, build_kwargs.
  apply lets_through_bind; [silent |]. intros token.
  destruct (negb (truthy token)); through.
Qed.

Lemma lets_through_patch_bot w bot : lets_through (patch_bot w bot).
Proof. unfold patch_bot. through. Qed.

Lemma lets_through_include w : lets_through (include_router_once w).
Proof.
  unfold include_router_once. apply lets_through_try_except.
  apply lets_through_bind; [silent |]. intros flag.
  destruct (negb (truthy flag)); through.
Qed.

Lemma lets_through_register w : lets_through (register_startup w).
Proof.
  unfold register_startup. apply lets_through_try_except.
  apply lets_through_bind; [silent |]. intros [|]; through.
Qed.

(** The cleanup under the [finally]: polling is not a guarded call, and no
    call follows the cleanup. *)
Lemma lets_through_finale w bot :
  lets_through (try_finally (start_polling w bot) (cleanup w)).
Proof.
  intros st.
  destruct (try_finally (start_polling w bot) (cleanup w) st) as [r st'] eqn:E.
  apply finale_spec in E. simpl.
  destruct (attrs st !! "dp") as [dp |]; destruct E as (_ & Ht & ->);
    (eexists; split; [exact Ht |]); intros c e Hin Hg He;
    rewrite ?elem_of_cons, elem_of_nil in Hin;
    repeat match type of Hin with
           | _ ∨ _ => destruct Hin as [Hin | Hin]
           | False => contradiction
           end;
    injection Hin as -> Hc; try discriminate Hg;
    unfold after_cleanup; rewrite <- Hc, He;
    (split; [reflexivity |]).
  - exists [(StartPolling dp bot, start_polling_result w)]. reflexivity.
  - exists []. reflexivity.
Qed.

Lemma lets_through_main env w : lets_through (main env w).
Proof.
  unfold main.
  repeat first [ apply lets_through_build_bot | apply lets_through_patch_bot
               | apply lets_through_include | apply lets_through_register
               | apply lets_through_finale
               | apply lets_through_bind; [| intros ?]
               | apply lets_through_ext
               | silent ].
Qed.

(** *** The two assignments to the module (lines 87 and 99) *)

Lemma patch_bot_escapes w bot st e :
  setattr_result w "bot" = Some e → is_Exception e = false →
  patch_bot w bot st = (Raise e, st).
Proof.
  intros Hset He. unfold patch_bot, try_except, setattr. rewrite Hset, He.
  reflexivity.
Qed.

Lemma patch_bot_completes w bot st :
  (∀ e, setattr_result w "bot" = Some e → is_Exception e = true) →
  ∃ st', patch_bot w bot st = (Ret tt, st')
         ∧ included (attrs st') = included (attrs st).
Proof.
  intros Hx. unfold patch_bot, try_except, setattr, ret.
  destruct (setattr_result w "bot") as [e |] eqn:Hset.
  - rewrite (Hx e eq_refl). eauto.
  - eexists. split; [reflexivity |]. unfold included. simpl.
    rewrite lookup_insert_ne by discriminate. reflexivity.
Qed.

Lemma flag_assignment_escapes w st e :
  included (attrs st) = false →
  (∀ e', include_router_result w = Some e' → is_Exception e' = true) →
  setattr_result w "_KOYEB_ROUTER_INCLUDED" = Some e → is_Exception e = false →
  (include_router_once w st).1 = Raise e.
Proof.
  intros Hinc Hx Hset He. unfold included in Hinc.
  unfold include_router_once. run_block. rewrite Hinc. simpl. rewrite Hset.
  destruct (attrs st !! "dp") as [dp |]; simpl;
    [destruct (attrs st !! "router") as [router |]; simpl;
     [destruct (include_router_result w) as [e' |] eqn:Hi; simpl;
      [rewrite (Hx e' eq_refl); simpl |] |] |];
    rewrite He; reflexivity.
Qed.

(** C6, as amended, in three parts.

    (1) An exception of a guarded call that is an instance of [Exception] is
    swallowed.  Let every exception raised by connector construction,
    signature introspection, the two assignments to the module, router
    inclusion, startup-hook registration and the runner's cleanup be an
    [Exception].  Then, when the steps that are not guarded succeed (a token
    resolves, the session and the bot are constructed, PORT reads as an
    integer, the listener starts, the module has a dispatcher), [main]
    reaches the polling call, calls the cleanup after it, and ends exactly as
    the polling call ended.

    (2) An exception outside [Exception] is not swallowed.  In every run of
    [main], when one of the guarded calls (connector construction, signature
    introspection, router inclusion, startup-hook registration, the cleanup)
    raised an exception that is not an [Exception], that call is the last
    call of the run and [main] raises that exception.

    (3) The same for the two guarded assignments, which make no call: once
    the listener is up, when the assignment of the bot to the module raises
    an exception that is not an [Exception], [main] raises it there and then;
    and when that assignment completes or is swallowed, the flag is not set,
    the inclusion completes or is swallowed, and the assignment of the flag
    raises an exception that is not an [Exception], [main] raises it. *)
Theorem guarded_failures_not_fatal (env : gmap string string) (w : World)
    (st : state) :
  (∀ (port : Z) (dp : value),
     (∀ e, Some e ∈ guarded_outcomes w → is_Exception e = true) →
     truthy (py_or (getenv env "BOT_TOKEN") (default VNone (attrs st !! "API_TOKEN")))
       = true →
     AiohttpSession_result w = None → Bot_result w = None →
     port_of_env env w = inr port →
     setup_result w = None → start_result w port = None →
     attrs st !! "dp" = Some dp →
     (main env w st).1 = result_of (start_polling_result w)
     ∧ ∃ pre bot,
         trace (main env w st).2
         = (trace st ++ pre ++ [(StartPolling dp bot, start_polling_result w);
                                (RunnerCleanup, cleanup_result w)])%list)
  ∧ (∀ (evs : list (call * outcome)) (c : call) (e : exn),
       trace (main env w st).2 = (trace st ++ evs)%list →
       (c, Some e) ∈ evs → is_guarded_call c = true → is_Exception e = false →
       (main env w st).1 = Raise e
       ∧ ∃ pre, evs = (pre ++ [(c, Some e)])%list)
  ∧ (∀ (bot : Bot) (st1 : state) (port : Z) (e : exn),
       _build_bot env w st = (Ret bot, st1) →
       port_of_env env w = inr port →
       setup_result w = None → start_result w port = None →
       is_Exception e = false →
       (setattr_result w "bot" = Some e →
        main env w st = (Raise e, listening port st1))
       ∧ ((∀ e', setattr_result w "bot" = Some e' → is_Exception e' = true) →
          included (attrs st) = false →
          (∀ e', include_router_result w = Some e' → is_Exception e' = true) →
          setattr_result w "_KOYEB_ROUTER_INCLUDED" = Some e →
          (main env w st).1 = Raise e)).
Proof.
  split; [| split].
  - intros port dp Hg Htok Hses Hbot Hport Hsetup Hstart Hdp.
    assert (Hx : ∀ o, o ∈ guarded_outcomes w →
                      ∀ e, o = Some e → is_Exception e = true).
    { intros o Ho e ->. apply Hg, Ho. }
    destruct (build_bot_returns env w st _ (resolve_token_or env st) Htok)
      as (b0 & st0 & Eb & _); auto.
    { intros e He. apply Hg. unfold guarded_outcomes. rewrite <- He.
      apply list_elem_of_here. }
    { intros e He. apply Hg. unfold guarded_outcomes. rewrite He.
      apply list_elem_of_further, list_elem_of_here. }
    assert (Hb : ∀ r bevs, built env w st r bevs → r = Ret b0).
    { intros r bevs (st2 & E2 & _). congruence. }
    assert (Hclean : ∀ r, after_cleanup w r = r).
    { intros r. unfold after_cleanup.
      destruct (cleanup_result w) as [e |] eqn:Hc; [| reflexivity].
      rewrite (Hg e); [reflexivity |].
      unfold guarded_outcomes. rewrite <- Hc. rewrite !elem_of_cons. auto 10. }
    destruct (main_events env w st) as (evs & Ht & Ho).
    rewrite Ht. clear Ht.
    destruct Ho as [e bevs Hbuilt | b bevs ep Hbuilt Hp | b bevs p e Hbuilt Hp Hs
                   | b bevs p e Hbuilt Hp Hs Hst
                   | b bevs p e a' wevs Hbuilt Hp Hs Hst Hw
                   | b bevs p a' wevs Hbuilt Hp Hs Hst Hw Hdp'
                   | b bevs p a' wevs dp' Hbuilt Hp Hs Hst Hw Hdp'];
      try (apply Hb in Hbuilt; discriminate Hbuilt);
      try congruence.
    + destruct Hw as [_ _ _ _ [Hr | (e' & [= <-] & Hne & Hin)]]; [discriminate |].
      rewrite (Hg e Hin) in Hne. discriminate.
    + destruct Hw as [_ Ha _ _ _].
      rewrite Ha in Hdp' by discriminate. congruence.
    + destruct Hw as [_ Ha _ _ _].
      rewrite Ha in Hdp' by discriminate.
      assert (dp' = dp) as -> by congruence.
      split; [apply Hclean |].
      exists (bevs ++ listener_calls p None ++ wevs)%list, b.
      rewrite <- !(assoc_L (++)). reflexivity.
  - intros evs c e Ht.
    destruct (lets_through_main env w st) as (evs0 & Ht0 & H).
    rewrite Ht0 in Ht. apply app_inv_head in Ht. subst evs0. apply H.
  - intros bot st1 port e Eb Hp Hs Hst He.
    pose proof (main_after_listener env w st bot st1 port Eb Hp Hs Hst) as Em.
    split.
    + intros Hset. rewrite Em. unfold bind at 1.
      rewrite (patch_bot_escapes w bot _ e Hset He). reflexivity.
    + intros Hbotx Hinc Hix Hset. rewrite Em. unfold bind at 1.
      destruct (patch_bot_completes w bot (listening port st1) Hbotx)
        as (sa & -> & Ha).
      unfold bind at 1.
      assert (Hinca : included (attrs sa) = false).
      { rewrite Ha. simpl.
        destruct (build_bot_frame _ _ _ _ _ Eb) as (-> & _). exact Hinc. }
      pose proof (flag_assignment_escapes w sa e Hinca Hix Hset He) as Hr.
      destruct (include_router_once w sa) as [rb sb]. simpl in Hr. subst rb.
      reflexivity.
Qed.

Lemma guarded_failures_not_fatal_witness :
  ((main ∅ grudging_world (fresh bot_module)).1 = Ret tt
   ∧ ∃ pre bot,
       trace (main ∅ grudging_world (fresh bot_module)).2
       = (trace (fresh bot_module) ++ pre
            ++ [(StartPolling (VObj "dp") bot, None);
                (RunnerCleanup, Some (OtherException "OSError"))])%list)
  ∧ ((main ∅ (include_raising_world (NonException "CancelledError"))
        (fresh bot_module)).1
     = Raise (NonException "CancelledError")
     ∧ ∃ pre,
         trace (main ∅ (include_raising_world (NonException "CancelledError"))
                  (fresh bot_module)).2
         = (pre ++ [(IncludeRouter (VObj "dp") (VObj "router"),
                     Some (NonException "CancelledError"))])%list)
  ∧ (main ∅ (setattr_raising_world "bot" (NonException "SystemExit"))
       (fresh bot_module)).1
    = Raise (NonException "SystemExit")
  ∧ (main ∅ (setattr_raising_world "_KOYEB_ROUTER_INCLUDED"
               (NonException "SystemExit")) (fresh bot_module)).1
    = Raise (NonException "SystemExit").
Proof.
  split; [| split; [| split]].
  - destruct (guarded_failures_not_fatal ∅ grudging_world (fresh bot_module))
      as (H & _ & _).
    apply (H 8000 (VObj "dp")); try (vm_compute; reflexivity).
    intros e. unfold guarded_outcomes. simpl.
    rewrite !elem_of_cons, elem_of_nil.
    intros [E | [E | [E | [E | [E | [E | [E | []]]]]]]];
      injection E as ->; reflexivity.
  - destruct (guarded_failures_not_fatal ∅
                (include_raising_world (NonException "CancelledError"))
                (fresh bot_module)) as (_ & H & _).
    apply (H _ (IncludeRouter (VObj "dp") (VObj "router"))
             (NonException "CancelledError")); try reflexivity.
    vm_compute. do 6 apply list_elem_of_further. apply list_elem_of_here.
  - destruct (guarded_failures_not_fatal ∅
                (setattr_raising_world "bot" (NonException "SystemExit"))
                (fresh bot_module)) as (_ & _ & H).
    assert (Eb : _build_bot ∅ (setattr_raising_world "bot" (NonException "SystemExit"))
                   (fresh bot_module)
                 = (Ret module_bot,
                    (_build_bot ∅ (setattr_raising_world "bot"
                                     (NonException "SystemExit"))
                       (fresh bot_module)).2))
      by (vm_compute; reflexivity).
    assert (Ep : port_of_env ∅ (setattr_raising_world "bot" (NonException "SystemExit"))
                 = inr 8000) by (vm_compute; reflexivity).
    destruct (H _ _ _ (NonException "SystemExit") Eb Ep eq_refl eq_refl eq_refl)
      as (H1 & _).
    rewrite (H1 eq_refl). reflexivity.
  - destruct (guarded_failures_not_fatal ∅
                (setattr_raising_world "_KOYEB_ROUTER_INCLUDED"
                   (NonException "SystemExit"))
                (fresh bot_module)) as (_ & _ & H).
    assert (Eb : _build_bot ∅ (setattr_raising_world "_KOYEB_ROUTER_INCLUDED"
                                 (NonException "SystemExit"))
                   (fresh bot_module)
                 = (Ret module_bot,
                    (_build_bot ∅ (setattr_raising_world "_KOYEB_ROUTER_INCLUDED"
                                     (NonException "SystemExit"))
                       (fresh bot_module)).2))
      by (vm_compute; reflexivity).
    assert (Ep : port_of_env ∅ (setattr_raising_world "_KOYEB_ROUTER_INCLUDED"
                                  (NonException "SystemExit"))
                 = inr 8000) by (vm_compute; reflexivity).
    destruct (H _ _ _ (NonException "SystemExit") Eb Ep eq_refl eq_refl eq_refl)
      as (_ & H2).
    apply H2.
    + intros e'. vm_compute. discriminate.
    + vm_compute. reflexivity.
    + intros e'. vm_compute. discriminate.
    + reflexivity.
Defined.

(** C6 as worded fails for an exception outside [Exception]: a
    KeyboardInterrupt arising while the connector is constructed passes the
    handler of line 38, [main] raises it, and polling is never reached. *)
Lemma guarded_failure_fatal :
  Some (NonException "KeyboardInterrupt") ∈ guarded_outcomes interrupted_world
  ∧ (TCPConnector AF_INET, Some (NonException "KeyboardInterrupt"))
    ∈ trace (main ∅ interrupted_world (fresh bot_module)).2
  ∧ (main ∅ interrupted_world (fresh bot_module)).1
    = Raise (NonException "KeyboardInterrupt")
  ∧ count_calls is_StartPolling
      (trace (main ∅ interrupted_world (fresh bot_module)).2) = 0%nat.
Proof.
  split; [| split; [| split]]; try (vm_compute; reflexivity).
  - apply list_elem_of_here.
  - vm_compute. apply list_elem_of_here.
Qed.

(** ** Invoking [main] more than once (lines 91-111) *)

(** One invocation: at most one [include_router] call; none, and the flag
    stays, when the flag was already set. *)
Lemma main_includes env w st evs :
  trace (main env w st).2 = (trace st ++ evs)%list →
  (count_calls is_IncludeRouter evs ≤ 1)%nat
  ∧ (included (attrs st) = true →
     count_calls is_IncludeRouter evs = 0%nat
     ∧ (keeps_flag w → included (attrs (main env w st).2) = true)).
Proof.
  intros Ht. apply main_events_unique in Ht.
  assert (Hb : ∀ r bevs, built env w st r bevs →
                         count_calls is_IncludeRouter bevs = 0%nat).
  { intros r bevs (_ & _ & Hall).
    apply (count_calls_none _ _ _ Hall). intros []; simpl; congruence. }
  destruct Ht as [e bevs Hbuilt | b bevs ep Hbuilt Hp | b bevs p e Hbuilt Hp Hs
                 | b bevs p e Hbuilt Hp Hs Hst
                 | b bevs p e a' wevs Hbuilt Hp Hs Hst Hw
                 | b bevs p a' wevs Hbuilt Hp Hs Hst Hw Hdp
                 | b bevs p a' wevs dp Hbuilt Hp Hs Hst Hw Hdp];
    apply Hb in Hbuilt; try destruct Hw as [_ _ Hskip Honce _];
    rewrite ?count_calls_app, ?Hbuilt; simpl; (split; [lia |]); intros Hi;
    try (destruct (Hskip Hi) as [Hi' H0]; rewrite H0); auto.
Qed.

(** Invocations that start with the flag set make no [include_router] call
    and leave the flag set. *)
Lemma flagged_runs_skip runs st :
  included (attrs st) = true →
  Forall (λ run : gmap string string * World, keeps_flag run.2) runs →
  ∃ evs, trace (run_all runs st) = (trace st ++ evs)%list
         ∧ count_calls is_IncludeRouter evs = 0%nat
         ∧ included (attrs (run_all runs st)) = true.
Proof.
  intros Hi Hall. revert st Hi.
  induction Hall as [| [env w] runs Hk _ IH]; intros st Hi; simpl.
  - exists []. rewrite app_nil_r. auto.
  - destruct (main_events env w st) as (evs1 & Ht1 & _).
    destruct (main_includes env w st evs1 Ht1) as [_ H].
    destruct (H Hi) as [H0 Hflag].
    destruct (IH (main env w st).2 (Hflag Hk)) as (evs & Ht & Hc & Hi').
    exists (evs1 ++ evs)%list. rewrite Ht, Ht1, (assoc_L (++)).
    rewrite count_calls_app, H0, Hc. auto.
Qed.

(** C5: once the first invocation of [main] has left the module flag
    _KOYEB_ROUTER_INCLUDED set, no later invocation calls
    [app.dp.include_router(app.router)] -- as long as the polling application
    does not clear the flag -- so over all invocations the call is made at
    most once: the first invocation makes at most one, the later ones none. *)
Theorem router_included_once (env : gmap string string) (w : World) (st : state)
    (later : list (gmap string string * World)) :
  included (attrs (main env w st).2) = true →
  Forall (λ run : gmap string string * World, keeps_flag run.2) later →
  ∃ first rest,
    trace (main env w st).2 = (trace st ++ first)%list
    ∧ trace (run_all ((env, w) :: later) st) = (trace st ++ first ++ rest)%list
    ∧ count_calls is_IncludeRouter rest = 0%nat
    ∧ (count_calls is_IncludeRouter (first ++ rest) ≤ 1)%nat.
Proof.
  intros Hi Hall.
  destruct (main_events env w st) as (first & Ht1 & _).
  destruct (main_includes env w st first Ht1) as [H1 _].
  destruct (flagged_runs_skip later (main env w st).2 Hi Hall)
    as (rest & Ht & H0 & _).
  exists first, rest. simpl. rewrite Ht, Ht1, (assoc_L (++)).
  rewrite count_calls_app, H0.
  split; [reflexivity |]. split; [reflexivity |]. split; [reflexivity | lia].
Qed.

Lemma quiet_keeps_flag : keeps_flag quiet_world.
Proof. intros a Ha. exact Ha. Defined.

Lemma router_included_once_witness :
  ∃ first rest,
    trace (main ∅ quiet_world (fresh bot_module)).2
    = (trace (fresh bot_module) ++ first)%list
    ∧ trace (run_all ((∅, quiet_world) :: two_quiet_runs) (fresh bot_module))
      = (trace (fresh bot_module) ++ first ++ rest)%list
    ∧ count_calls is_IncludeRouter rest = 0%nat
    ∧ (count_calls is_IncludeRouter (first ++ rest) ≤ 1)%nat.
Proof.
  apply (router_included_once ∅ quiet_world (fresh bot_module) two_quiet_runs).
  - vm_compute. reflexivity.
  - repeat constructor; exact quiet_keeps_flag.
Defined.

(** The first invocation from the sample module does make the call, once. *)
Example router_included_first :
  count_calls is_IncludeRouter (trace (main ∅ quiet_world (fresh bot_module)).2)
  = 1%nat.
Proof. vm_compute. reflexivity. Qed.

(** Lines 103-111 never look at the flag: whenever the module has a
    dispatcher and an [on_startup], the registration call is made. *)
Lemma register_startup_calls w st (dp hook : value) :
  attrs st !! "dp" = Some dp → attrs st !! "on_startup" = Some hook →
  trace (register_startup w st).2
  = (trace st ++ [(StartupRegister dp hook, register_result w)])%list.
Proof.
  intros Hdp Hhook. unfold register_startup. run_block.
  rewrite Hhook, bool_decide_eq_true_2 by eauto. simpl.
  rewrite Hdp. simpl. rewrite Hhook. simpl. repeat case_outcome; reflexivity.
Qed.

(** C4: the startup hook is not registered at most once.  Two invocations of
    [main] from the sample module, in a world where every call returns,
    call [app.dp.startup.register(app.on_startup)] twice, both times with
    success, while the router is included once: the registration of lines
    103-111 has no flag like the one guarding the inclusion of lines 91-101. *)
Theorem startup_hook_registered_twice :
  count_calls is_StartupRegister
    (trace (run_all two_quiet_runs (fresh bot_module))) = 2%nat
  ∧ count_calls is_IncludeRouter
      (trace (run_all two_quiet_runs (fresh bot_module))) = 1%nat
  ∧ ∀ c o, (c, o) ∈ trace (run_all two_quiet_runs (fresh bot_module)) →
           is_StartupRegister c = true →
           c = StartupRegister (VObj "dp") (VObj "on_startup") ∧ o = None.
Proof.
  split; [| split]; try (vm_compute; reflexivity).
  intros c o Hin Hc. vm_compute in Hin.
  repeat (apply elem_of_cons in Hin as [Hin | Hin];
          [injection Hin as -> ->; try discriminate Hc; auto |]).
  apply elem_of_nil in Hin. contradiction.
Qed.

(** * Further properties of the runner *)

(** ** Runs that reach the polling call, block by block *)

(** A run with a polling call got past the bot, the port and the listener. *)
Lemma polled_run_start env w st evs dp bot o :
  trace (main env w st).2 = (trace st ++ evs)%list →
  (StartPolling dp bot, o) ∈ evs →
  ∃ st1 port,
    _build_bot env w st = (Ret bot, st1) ∧ port_of_env env w = inr port
    ∧ setup_result w = None ∧ start_result w port = None.
Proof.
  intros Ht Hin. apply main_events_unique in Ht.
  destruct Ht as [e bevs Hbuilt | b bevs ep Hbuilt Hp | b bevs p e Hbuilt Hp Hs
                 | b bevs p e Hbuilt Hp Hs Hst
                 | b bevs p e a' wevs Hbuilt Hp Hs Hst Hw
                 | b bevs p a' wevs Hbuilt Hp Hs Hst Hw Hdp
                 | b bevs p a' wevs dp' Hbuilt Hp Hs Hst Hw Hdp];
    destruct Hbuilt as (st1 & Eb & Hall); try destruct Hw as [Hwall _ _ _ _];
    split_member Hin; try wrong_kind Hin; try discriminate Hin.
  injection Hin as -> -> ->. exists st1, p. auto.
Qed.

(** The blocks of a run that reaches polling: each one returned; the calls
    of the run are those of the blocks, in order; the module's attributes at
    the end are those the polling call left. *)
Lemma polled_run_inv env w st evs dp bot o :
  trace (main env w st).2 = (trace st ++ evs)%list →
  (StartPolling dp bot, o) ∈ evs →
  ∃ st1 port sa sb sc bevs ievs revs,
    (_build_bot env w st = (Ret bot, st1) ∧ port_of_env env w = inr port
     ∧ setup_result w = None ∧ start_result w port = None)
    ∧ (patch_bot w bot (listening port st1) = (Ret tt, sa)
       ∧ include_router_once w sa = (Ret tt, sb)
       ∧ register_startup w sb = (Ret tt, sc))
    ∧ (attrs sc !! "dp" = Some dp
       ∧ o = start_polling_result w
       ∧ attrs (main env w st).2 = polling_attrs w (attrs sc))
    ∧ (attrs st1 = attrs st
       ∧ trace sb = (trace sa ++ ievs)%list
       ∧ trace sc = (trace sb ++ revs)%list)
    ∧ evs = (bevs ++ listener_calls port None ++ ievs ++ revs
                  ++ [(StartPolling dp bot, o);
                      (RunnerCleanup, cleanup_result w)])%list
    ∧ Forall (λ ev, is_build_call ev.1 = true) bevs
    ∧ Forall (λ ev, is_IncludeRouter ev.1 = true) ievs
    ∧ Forall (λ ev, is_StartupRegister ev.1 = true) revs.
Proof.
  intros Ht Hin.
  destruct (polled_run_start env w st evs dp bot o Ht Hin)
    as (st1 & port & Eb & Hp & Hs & Hst).
  exists st1, port.
  destruct (build_bot_frame _ _ _ _ _ Eb) as (Ha1 & bevs & Ht1 & Hb).
  assert (Htl : trace (listening port st1)
                = (trace st ++ bevs ++ listener_calls port None)%list).
  { unfold listening, log, listener_calls. simpl.
    rewrite Ht1, <- !(assoc_L (++)). reflexivity. }
  destruct (main env w st) as [rf sf] eqn:Em. simpl in Ht |- *.
  rewrite (main_after_listener env w st bot st1 port Eb Hp Hs Hst) in Em.
  unfold bind at 1 in Em.
  destruct (patch_bot w bot (listening port st1)) as [ra sa] eqn:Ea.
  destruct (patch_bot_spec _ _ _ _ _ Ea) as (Hta & _ & _).
  destruct ra as [[] | ea]; cbn beta iota in Em.
  2: { injection Em as <- <-. rewrite Hta, Htl in Ht.
       apply app_inv_head in Ht. subst evs.
       split_member Hin; try wrong_kind Hin; discriminate Hin. }
  unfold bind at 1 in Em.
  destruct (include_router_once w sa) as [rb sb] eqn:Ei.
  destruct (include_router_once_spec _ _ _ _ Ei)
    as (_ & _ & (ievs & Htb & Hi & _) & _).
  destruct rb as [[] | eb]; cbn beta iota in Em.
  2: { injection Em as <- <-. rewrite Htb, Hta, Htl, <- !(assoc_L (++)) in Ht.
       apply app_inv_head in Ht. subst evs.
       split_member Hin; try wrong_kind Hin; discriminate Hin. }
  unfold bind at 1 in Em.
  destruct (register_startup w sb) as [rc sc] eqn:Er.
  destruct (register_startup_spec _ _ _ _ Er) as (_ & (revs & Htc & Hr) & _).
  destruct rc as [[] | ec]; cbn beta iota in Em.
  2: { injection Em as <- <-.
       rewrite Htc, Htb, Hta, Htl, <- !(assoc_L (++)) in Ht.
       apply app_inv_head in Ht. subst evs.
       split_member Hin; try wrong_kind Hin; discriminate Hin. }
  apply finale_spec in Em.
  destruct (attrs sc !! "dp") as [dp' |] eqn:Edp; destruct Em as (Haf & Htf & _);
    pose proof Htf as Htf';
    rewrite Ht, Htc, Htb, Hta, Htl, <- !(assoc_L (++)) in Htf';
    apply app_inv_head in Htf'; subst evs;
    split_member Hin; try wrong_kind Hin; try discriminate Hin.
  injection Hin as -> ->.
  exists sa, sb, sc, bevs, ievs, revs. auto 20.
Qed.

(** ** The module's bot while polling runs (lines 85-89, 114) *)

Lemma patch_bot_attr w bot st st' :
  patch_bot w bot st = (Ret tt, st') →
  (setattr_result w "bot" = None → attrs st' !! "bot" = Some (value_of_bot bot))
  ∧ (∀ e, setattr_result w "bot" = Some e → attrs st' = attrs st).
Proof.
  unfold patch_bot. run_block.
  destruct (setattr_result w "bot") as [e |]; simpl;
    [destruct (is_Exception e); simpl |]; intros [= <-]; simpl;
    (split; [intros H; try discriminate H; apply lookup_insert_eq
            | intros e' H; try discriminate H; reflexivity]).
Qed.

(** In a run that reaches polling, the module attribute [bot] at the moment
    polling is called ([a] below; the polling application may change the
    attributes afterwards) is the bot that polling is called with, when the
    assignment of line 87 went through; when that assignment raised, it is
    whatever the module had before, while polling still runs with the new
    bot. *)
Theorem module_bot_while_polling (env : gmap string string) (w : World)
    (st : state) (evs : list (call * outcome)) (dp : value) (bot : Bot)
    (o : outcome) :
  trace (main env w st).2 = (trace st ++ evs)%list →
  (StartPolling dp bot, o) ∈ evs →
  ∃ a, attrs (main env w st).2 = polling_attrs w a
       ∧ (setattr_result w "bot" = None → a !! "bot" = Some (value_of_bot bot))
       ∧ (∀ e, setattr_result w "bot" = Some e → a !! "bot" = attrs st !! "bot").
Proof.
  intros Ht Hin.
  destruct (polled_run_inv env w st evs dp bot o Ht Hin)
    as (st1 & port & sa & sb & sc & bevs & ievs & revs
        & (Eb & _) & (Ea & Ei & Er) & (_ & _ & Hfin) & (Ha1 & _) & _).
  destruct (patch_bot_attr _ _ _ _ Ea) as [Hset Hkeep].
  destruct (include_router_once_spec _ _ _ _ Ei) as (Hai & _).
  destruct (register_startup_spec _ _ _ _ Er) as (Har & _).
  exists (attrs sc). split; [exact Hfin |].
  rewrite Har, Hai by discriminate. split.
  - exact Hset.
  - intros e He. rewrite (Hkeep e He). simpl. rewrite Ha1. reflexivity.
Qed.

Lemma module_bot_while_polling_witness :
  ∃ a, attrs (main ∅ quiet_world (fresh bot_module)).2 = polling_attrs quiet_world a
       ∧ (setattr_result quiet_world "bot" = None →
          a !! "bot" = Some (value_of_bot module_bot))
       ∧ (∀ e, setattr_result quiet_world "bot" = Some e →
               a !! "bot" = attrs (fresh bot_module) !! "bot").
Proof.
  apply (module_bot_while_polling ∅ quiet_world (fresh bot_module)
           (trace (main ∅ quiet_world (fresh bot_module)).2)
           (VObj "dp") module_bot None).
  - reflexivity.
  - vm_compute. do 8 apply list_elem_of_further. apply list_elem_of_here.
Defined.

(** ** The flag and the inclusion (lines 91-101) *)

Lemma include_sets_flag w st st' :
  include_router_once w st = (Ret tt, st') →
  setattr_result w "_KOYEB_ROUTER_INCLUDED" = None →
  included (attrs st') = true.
Proof.
  intros E Hset. revert E. unfold include_router_once. run_block.
  destruct (truthy (default (VBool false) (attrs st !! "_KOYEB_ROUTER_INCLUDED")))
    eqn:Hinc; simpl.
  { intros [= <-]. exact Hinc. }
  rewrite Hset.
  repeat case_outcome; intros [= <-]; unfold included; simpl;
    rewrite lookup_insert_eq; reflexivity.
Qed.

Lemma include_calls w st (dp router : value) :
  included (attrs st) = false →
  attrs st !! "dp" = Some dp → attrs st !! "router" = Some router →
  trace (include_router_once w st).2
  = (trace st ++ [(IncludeRouter dp router, include_router_result w)])%list.
Proof.
  intros Hinc Hdp Hr. unfold included in Hinc.
  unfold include_router_once. run_block. rewrite Hinc. simpl.
  rewrite Hdp. simpl. rewrite Hr. simpl. repeat case_outcome; reflexivity.
Qed.

Lemma include_no_call w st :
  included (attrs st) = false →
  attrs st !! "dp" = None ∨ attrs st !! "router" = None →
  trace (include_router_once w st).2 = trace st.
Proof.
  intros Hinc Hmiss. unfold included in Hinc.
  unfold include_router_once. run_block. rewrite Hinc. simpl.
  destruct Hmiss as [H | H].
  - rewrite H. simpl. repeat case_outcome; reflexivity.
  - destruct (attrs st !! "dp"); simpl; rewrite ?H; simpl;
      repeat case_outcome; reflexivity.
Qed.

(** In a run that reaches polling, once the assignment of line 99 goes
    through the flag is set when polling is called -- also when
    [include_router] raised, or was never called because the module has no
    dispatcher or no router.  So, as long as the polling application keeps
    the flag, no later invocation calls [include_router]: an inclusion that
    failed is not tried again. *)
Theorem flag_set_whatever_inclusion_did (env : gmap string string) (w : World)
    (st : state) (evs : list (call * outcome)) (dp : value) (bot : Bot)
    (o : outcome) (later : list (gmap string string * World)) :
  trace (main env w st).2 = (trace st ++ evs)%list →
  (StartPolling dp bot, o) ∈ evs →
  setattr_result w "_KOYEB_ROUTER_INCLUDED" = None →
  (∃ a, attrs (main env w st).2 = polling_attrs w a ∧ included a = true)
  ∧ (keeps_flag w →
     Forall (λ run : gmap string string * World, keeps_flag run.2) later →
     ∃ rest, trace (run_all later (main env w st).2)
             = (trace (main env w st).2 ++ rest)%list
             ∧ count_calls is_IncludeRouter rest = 0%nat).
Proof.
  intros Ht Hin Hset.
  destruct (polled_run_inv env w st evs dp bot o Ht Hin)
    as (st1 & port & sa & sb & sc & bevs & ievs & revs
        & _ & (_ & Ei & Er) & (_ & _ & Hfin) & _).
  pose proof (include_sets_flag _ _ _ Ei Hset) as Hflag.
  destruct (register_startup_spec _ _ _ _ Er) as (Har & _).
  rewrite <- Har in Hflag.
  split; [exists (attrs sc); auto |].
  intros Hk Hall.
  assert (Hinc : included (attrs (main env w st).2) = true).
  { rewrite Hfin. apply Hk, Hflag. }
  destruct (flagged_runs_skip later _ Hinc Hall) as (rest & Hr & H0 & _).
  exists rest. auto.
Qed.

Lemma include_raising_keeps_flag e : keeps_flag (include_raising_world e).
Proof. intros a Ha. exact Ha. Defined.

Lemma flag_set_whatever_inclusion_did_witness :
  (∃ a, attrs (main ∅ (include_raising_world (RuntimeError "already attached"))
                 (fresh bot_module)).2
        = polling_attrs (include_raising_world (RuntimeError "already attached")) a
        ∧ included a = true)
  ∧ ∃ rest,
      trace (run_all two_quiet_runs
               (main ∅ (include_raising_world (RuntimeError "already attached"))
                  (fresh bot_module)).2)
      = (trace (main ∅ (include_raising_world (RuntimeError "already attached"))
                  (fresh bot_module)).2 ++ rest)%list
      ∧ count_calls is_IncludeRouter rest = 0%nat.
Proof.
  destruct (flag_set_whatever_inclusion_did ∅
              (include_raising_world (RuntimeError "already attached"))
              (fresh bot_module)
              (trace (main ∅ (include_raising_world (RuntimeError "already attached"))
                        (fresh bot_module)).2)
              (VObj "dp") module_bot None two_quiet_runs) as [H1 H2].
  - reflexivity.
  - vm_compute. do 8 apply list_elem_of_further. apply list_elem_of_here.
  - reflexivity.
  - split; [exact H1 |]. apply H2.
    + apply include_raising_keeps_flag.
    + repeat constructor; exact quiet_keeps_flag.
Defined.

Lemma count_calls_build p bevs :
  (∀ c, is_build_call c = true → p c = false) →
  Forall (λ ev, is_build_call ev.1 = true) bevs → count_calls p bevs = 0%nat.
Proof. intros Hp Hall. exact (count_calls_none p _ bevs Hall Hp). Qed.

(** In a run that reaches polling from a module whose flag is not set: when
    the module has a router, [include_router] is called exactly once, on the
    module's dispatcher and router; when it has none, the call is not made. *)
Theorem router_included_when_unflagged (env : gmap string string) (w : World)
    (st : state) (evs : list (call * outcome)) (dp : value) (bot : Bot)
    (o : outcome) :
  trace (main env w st).2 = (trace st ++ evs)%list →
  (StartPolling dp bot, o) ∈ evs →
  included (attrs st) = false →
  (∀ router, attrs st !! "router" = Some router →
             count_calls is_IncludeRouter evs = 1%nat
             ∧ (IncludeRouter dp router, include_router_result w) ∈ evs)
  ∧ (attrs st !! "router" = None → count_calls is_IncludeRouter evs = 0%nat).
Proof.
  intros Ht Hin Hinc.
  destruct (polled_run_inv env w st evs dp bot o Ht Hin)
    as (st1 & port & sa & sb & sc & bevs & ievs & revs
        & _ & (Ea & Ei & Er) & (Hdp & _ & _) & (Ha1 & Htb & _) & -> & Hb & Hi & Hr).
  destruct (patch_bot_spec _ _ _ _ _ Ea) as (_ & Haa & _).
  destruct (include_router_once_spec _ _ _ _ Ei) as (Hai & _).
  destruct (register_startup_spec _ _ _ _ Er) as (Har & _).
  assert (Hsa : ∀ k, k ≠ "bot" → attrs sa !! k = attrs st !! k).
  { intros k Hk. rewrite Haa by exact Hk. simpl. rewrite Ha1. reflexivity. }
  assert (Hinca : included (attrs sa) = false).
  { unfold included. rewrite Hsa by discriminate. exact Hinc. }
  assert (Hdpa : attrs sa !! "dp" = Some dp).
  { rewrite <- Hai, <- Har by discriminate. exact Hdp. }
  assert (H0b : count_calls is_IncludeRouter bevs = 0%nat).
  { apply count_calls_build; [intros []; simpl; congruence | exact Hb]. }
  assert (H0r : count_calls is_IncludeRouter revs = 0%nat).
  { apply (count_calls_none _ _ _ Hr). intros []; simpl; congruence. }
  rewrite !count_calls_app, H0b, H0r. simpl.
  split.
  - intros router Hrt. rewrite <- Hsa in Hrt by discriminate.
    pose proof (include_calls w sa dp router Hinca Hdpa Hrt) as Hc.
    rewrite Ei in Hc. simpl in Hc. rewrite Htb in Hc.
    apply app_inv_head in Hc. subst ievs. simpl. split; [reflexivity |].
    unfold listener_calls. rewrite !elem_of_app, !elem_of_cons. auto 10.
  - intros Hrt. rewrite <- Hsa in Hrt by discriminate.
    pose proof (include_no_call w sa Hinca (or_intror Hrt)) as Hc.
    rewrite Ei in Hc. simpl in Hc. rewrite Htb in Hc.
    rewrite <- (app_nil_r (trace sa)) in Hc at 2.
    apply app_inv_head in Hc. subst ievs. reflexivity.
Qed.

Lemma router_included_when_unflagged_witness :
  count_calls is_IncludeRouter (trace (main ∅ quiet_world (fresh bot_module)).2)
  = 1%nat
  ∧ (IncludeRouter (VObj "dp") (VObj "router"), include_router_result quiet_world)
    ∈ trace (main ∅ quiet_world (fresh bot_module)).2.
Proof.
  destruct (router_included_when_unflagged ∅ quiet_world (fresh bot_module)
              (trace (main ∅ quiet_world (fresh bot_module)).2)
              (VObj "dp") module_bot None) as [H _].
  - reflexivity.
  - vm_compute. do 8 apply list_elem_of_further. apply list_elem_of_here.
  - vm_compute. reflexivity.
  - apply (H (VObj "router")). vm_compute. reflexivity.
Defined.

(** ** The startup hook (lines 103-111) *)

Lemma register_startup_absent w st :
  attrs st !! "on_startup" = None → register_startup w st = (Ret tt, st).
Proof.
  intros H. unfold register_startup. run_block. rewrite H.
  rewrite bool_decide_eq_false_2 by (intros [v Hv]; discriminate Hv).
  reflexivity.
Qed.

(** Every run that reaches polling registers the hook anew: when the module
    defines [on_startup], [app.dp.startup.register] is called exactly once in
    the run, on the module's dispatcher and hook, whatever the state of the
    flag; when the module defines none, the call is not made. *)
Theorem hook_registered_every_run (env : gmap string string) (w : World)
    (st : state) (evs : list (call * outcome)) (dp : value) (bot : Bot)
    (o : outcome) :
  trace (main env w st).2 = (trace st ++ evs)%list →
  (StartPolling dp bot, o) ∈ evs →
  (∀ hook, attrs st !! "on_startup" = Some hook →
           count_calls is_StartupRegister evs = 1%nat
           ∧ (StartupRegister dp hook, register_result w) ∈ evs)
  ∧ (attrs st !! "on_startup" = None →
     count_calls is_StartupRegister evs = 0%nat).
Proof.
  intros Ht Hin.
  destruct (polled_run_inv env w st evs dp bot o Ht Hin)
    as (st1 & port & sa & sb & sc & bevs & ievs & revs
        & _ & (Ea & Ei & Er) & (Hdp & _ & _) & (Ha1 & _ & Htc) & -> & Hb & Hi & Hr).
  destruct (patch_bot_spec _ _ _ _ _ Ea) as (_ & Haa & _).
  destruct (include_router_once_spec _ _ _ _ Ei) as (Hai & _).
  destruct (register_startup_spec _ _ _ _ Er) as (Har & _).
  assert (Hsb : ∀ k, k ≠ "bot" → k ≠ "_KOYEB_ROUTER_INCLUDED" →
                     attrs sb !! k = attrs st !! k).
  { intros k Hk1 Hk2. rewrite Hai, Haa by assumption. simpl.
    rewrite Ha1. reflexivity. }
  assert (Hdpb : attrs sb !! "dp" = Some dp) by (rewrite <- Har; exact Hdp).
  assert (H0b : count_calls is_StartupRegister bevs = 0%nat).
  { apply count_calls_build; [intros []; simpl; congruence | exact Hb]. }
  assert (H0i : count_calls is_StartupRegister ievs = 0%nat).
  { apply (count_calls_none _ _ _ Hi). intros []; simpl; congruence. }
  rewrite !count_calls_app, H0b, H0i. simpl.
  split.
  - intros hook Hh. rewrite <- Hsb in Hh by discriminate.
    pose proof (register_startup_calls w sb dp hook Hdpb Hh) as Hc.
    rewrite Er in Hc. simpl in Hc. rewrite Htc in Hc.
    apply app_inv_head in Hc. subst revs. simpl. split; [reflexivity |].
    unfold listener_calls.
    repeat (rewrite elem_of_app || rewrite elem_of_cons).
    repeat first [left; reflexivity | right].
  - intros Hh. rewrite <- Hsb in Hh by discriminate.
    rewrite (register_startup_absent w sb Hh) in Er. injection Er as <-.
    rewrite <- (app_nil_r (trace sb)) in Htc at 1.
    apply app_inv_head in Htc. subst revs. reflexivity.
Qed.

Lemma hook_registered_every_run_witness :
  count_calls is_StartupRegister
    (drop (length (trace (main ∅ quiet_world (fresh bot_module)).2))
       (trace (run_all two_quiet_runs (fresh bot_module)))) = 1%nat
  ∧ (StartupRegister (VObj "dp") (VObj "on_startup"), register_result quiet_world)
    ∈ drop (length (trace (main ∅ quiet_world (fresh bot_module)).2))
        (trace (run_all two_quiet_runs (fresh bot_module))).
Proof.
  destruct (hook_registered_every_run ∅ quiet_world
              (main ∅ quiet_world (fresh bot_module)).2
              (drop (length (trace (main ∅ quiet_world (fresh bot_module)).2))
                 (trace (run_all two_quiet_runs (fresh bot_module))))
              (VObj "dp") module_bot None) as [H _].
  - vm_compute. reflexivity.
  - vm_compute. do 7 apply list_elem_of_further. apply list_elem_of_here.
  - apply (H (VObj "on_startup")). vm_compute. reflexivity.
Defined.

(** ** What [_build_bot] does and leaves alone (lines 22-60) *)

(** [_build_bot] never writes to the external module and calls nothing but
    the connector, the signature, the session and the Bot constructors, at
    most four calls in all.  A bot it returns has a truthy token and the HTML
    parse mode, and is the one a successful [Bot(...)] call was made for, on
    a session a successful [AiohttpSession(...)] call was made for. *)
Theorem build_bot_footprint (env : gmap string string) (w : World) (st : state) :
  attrs (_build_bot env w st).2 = attrs st
  ∧ ∃ evs, trace (_build_bot env w st).2 = (trace st ++ evs)%list
           ∧ Forall (λ ev, is_build_call ev.1 = true) evs
           ∧ (length evs ≤ 4)%nat
           ∧ ∀ b, (_build_bot env w st).1 = Ret b →
                  truthy (bot_token b) = true
                  ∧ bot_parse_mode b = HTML
                  ∧ (AiohttpSession (session_kwargs (bot_session b)), None) ∈ evs
                  ∧ (BotInit (bot_token b) HTML (bot_session b), None) ∈ evs.
Proof.
  unfold _build_bot, bind.
  destruct (resolve_token_total env st) as [t ->].
  destruct (truthy t) eqn:Ht; simpl.
  2: { split; [reflexivity |]. exists []. rewrite app_nil_r.
       split; [reflexivity |]. split; [constructor |]. split; [simpl; lia |].
       intros b Hb. discriminate Hb. }
  unfold build_connector, build_kwargs, signature_parameters, bind, ret,
    try_except, ext, log; simpl.
  destruct (TCPConnector_result w) as [e1 |]; simpl;
    [destruct (is_Exception e1); simpl |];
    try (destruct (signature_result w) as [e2 | params]; simpl;
         [destruct (is_Exception e2); simpl |]);
    try (destruct (AiohttpSession_result w) as [e3 |]; simpl);
    try (destruct (Bot_result w) as [e4 |]; simpl);
    (split; [reflexivity |]);
    rewrite <- ?(assoc_L (++)); eexists; (split; [reflexivity |]);
    (split; [repeat constructor |]); (split; [simpl; lia |]);
    intros b Hb; try discriminate Hb; injection Hb as <-; simpl;
    (split; [exact Ht |]); (split; [reflexivity |]);
    rewrite !elem_of_cons; auto 10.
Qed.

(** How [_build_bot] can fail: without a token, by an exception outside
    [Exception] from the two guarded probes, or by the exception of one of
    the two unguarded constructors. *)
Lemma build_bot_raises env w st e st' :
  _build_bot env w st = (Raise e, st') →
  e = RuntimeError no_token_message
  ∨ (TCPConnector_result w = Some e ∧ is_Exception e = false)
  ∨ (signature_result w = inl e ∧ is_Exception e = false)
  ∨ AiohttpSession_result w = Some e
  ∨ Bot_result w = Some e.
Proof.
  unfold _build_bot, bind.
  destruct (resolve_token_total env st) as [t ->].
  destruct (truthy t) eqn:Ht; simpl.
  2: { intros [= <- _]. auto. }
  unfold build_connector, build_kwargs, signature_parameters, bind, ret,
    try_except, ext, log; simpl.
  destruct (TCPConnector_result w) as [e1 |]; simpl;
    [destruct (is_Exception e1) eqn:Hx1; simpl |];
    try (destruct (signature_result w) as [e2 | params]; simpl;
         [destruct (is_Exception e2) eqn:Hx2; simpl |]);
    try (destruct (AiohttpSession_result w) as [e3 |]; simpl);
    try (destruct (Bot_result w) as [e4 |]; simpl);
    intros [= <- _]; auto 10.
Qed.

(** ** Failures that end the run (lines 29-31, 54-60, 70, 80-83, 113-119) *)

(** When every exception of the guarded calls is an [Exception], [main] can
    only raise: the missing-token RuntimeError, the exception of the session
    or the Bot constructor, the exception [int] raises on PORT's value, the
    exception of the runner's setup or the site's start, the AttributeError
    for a module without a dispatcher, or the exception of the polling
    call. *)
Theorem fatal_failures (env : gmap string string) (w : World) (st : state)
    (e : exn) :
  swallowed w →
  (main env w st).1 = Raise e →
  e = RuntimeError no_token_message
  ∨ AiohttpSession_result w = Some e
  ∨ Bot_result w = Some e
  ∨ port_of_env env w = inl e
  ∨ setup_result w = Some e
  ∨ (∃ port, port_of_env env w = inr port ∧ start_result w port = Some e)
  ∨ e = AttributeError (no_attribute_message "dp")
  ∨ start_polling_result w = Some e.
Proof.
  intros Hsw Hr.
  assert (Hclean : ∀ r, after_cleanup w r = r).
  { intros r. unfold after_cleanup.
    destruct (cleanup_result w) as [e' |] eqn:Hc; [| reflexivity].
    rewrite (Hsw e'); [reflexivity |].
    unfold guarded_outcomes. rewrite <- Hc. rewrite !elem_of_cons. auto 10. }
  destruct (main_events env w st) as (evs & _ & Ho). rewrite Hr in Ho.
  inversion Ho as [e0 bevs Hbuilt | b bevs e0 Hbuilt Hp | b bevs p e0 Hbuilt Hp Hs
                  | b bevs p e0 Hbuilt Hp Hs Hst
                  | b bevs p e0 a' wevs Hbuilt Hp Hs Hst Hw
                  | b bevs p a' wevs Hbuilt Hp Hs Hst Hw Hdp Hres
                  | b bevs p a' wevs dp Hbuilt Hp Hs Hst Hw Hdp Hres]; subst.
  - destruct Hbuilt as (st1 & Eb & _).
    destruct (build_bot_raises _ _ _ _ _ Eb)
      as [-> | [[Hc Hx] | [[Hc Hx] | [Hc | Hc]]]]; auto.
    + rewrite Hsw in Hx; [discriminate |].
      unfold guarded_outcomes. rewrite <- Hc. apply list_elem_of_here.
    + rewrite Hsw in Hx; [discriminate |].
      unfold guarded_outcomes. rewrite Hc.
      apply list_elem_of_further, list_elem_of_here.
  - auto 10.
  - auto 10.
  - do 5 right. left. exists p. auto.
  - destruct Hw as [_ _ _ _ [Hw | (e' & [= <-] & Hne & Hin)]]; [discriminate |].
    rewrite (Hsw e Hin) in Hne. discriminate.
  - rewrite Hclean in Hres. injection Hres as <-. auto 10.
  - rewrite Hclean in Hres. unfold result_of in Hres.
    destruct (start_polling_result w) as [e' |]; [| discriminate].
    injection Hres as <-. auto 10.
Qed.

Lemma failing_poll_swallowed : swallowed failing_poll_world.
Proof.
  intros e. unfold guarded_outcomes. simpl.
  rewrite !elem_of_cons, elem_of_nil.
  intros [H | [H | [H | [H | [H | [H | [H | []]]]]]]];
    try discriminate H; injection H as ->; reflexivity.
Defined.

Lemma fatal_failures_witness :
  RuntimeError "polling failed" = RuntimeError no_token_message
  ∨ AiohttpSession_result failing_poll_world = Some (RuntimeError "polling failed")
  ∨ Bot_result failing_poll_world = Some (RuntimeError "polling failed")
  ∨ port_of_env ∅ failing_poll_world = inl (RuntimeError "polling failed")
  ∨ setup_result failing_poll_world = Some (RuntimeError "polling failed")
  ∨ (∃ port, port_of_env ∅ failing_poll_world = inr port
             ∧ start_result failing_poll_world port
               = Some (RuntimeError "polling failed"))
  ∨ RuntimeError "polling failed" = AttributeError (no_attribute_message "dp")
  ∨ start_polling_result failing_poll_world = Some (RuntimeError "polling failed").
Proof.
  apply (fatal_failures ∅ failing_poll_world (fresh bot_module)).
  - exact failing_poll_swallowed.
  - vm_compute. reflexivity.
Defined.

(** When [int] raises on the value PORT is set to, the run ends with that
    exception right after the bot was constructed: the final state is the one
    [_build_bot] left, so the module is untouched, nothing of the health
    listener was set up, and no cleanup is attempted.  For a value [int]
    rejects as a literal the exception is the ValueError for that value. *)
Theorem bad_port_is_fatal (env : gmap string string) (w : World) (st : state)
    (bot : Bot) (st1 : state) (s : string) (e : exn) :
  _build_bot env w st = (Ret bot, st1) →
  env !! "PORT" = Some s → int_outcome w s = inl e →
  main env w st = (Raise e, st1)
  ∧ (py_int s = Rejects → e = InvalidLiteral s)
  ∧ attrs st1 = attrs st
  ∧ ∃ bevs, trace st1 = (trace st ++ bevs)%list
            ∧ Forall (λ ev, is_build_call ev.1 = true) bevs.
Proof.
  intros Eb Hp Hs. split; [| split; [| exact (build_bot_frame _ _ _ _ _ Eb)]].
  - unfold main. unfold bind at 1. rewrite Eb.
    unfold bind at 1, int, getenv_default. rewrite Hp. simpl. rewrite Hs.
    reflexivity.
  - intros Hr. unfold int_outcome in Hs. rewrite Hr in Hs. congruence.
Qed.

Lemma bad_port_is_fatal_witness :
  ∃ st1,
    main {["PORT" := "80a"]} quiet_world (fresh bot_module)
    = (Raise (InvalidLiteral "80a"), st1)
    ∧ (py_int "80a" = Rejects → InvalidLiteral "80a" = InvalidLiteral "80a")
    ∧ attrs st1 = attrs (fresh bot_module)
    ∧ ∃ bevs, trace st1 = (trace (fresh bot_module) ++ bevs)%list
              ∧ Forall (λ ev, is_build_call ev.1 = true) bevs.
Proof.
  destruct (_build_bot {["PORT" := "80a"]} quiet_world (fresh bot_module))
    as [[bot | e] st1] eqn:E; [| vm_compute in E; discriminate E].
  exists st1.
  apply (bad_port_is_fatal {["PORT" := "80a"]} quiet_world (fresh bot_module)
           bot st1 "80a" (InvalidLiteral "80a") E); vm_compute; reflexivity.
Defined.

(** When the runner's setup or the site's start raises, [main] raises that
    exception at once: the module is left as it was, polling is never
    called, and -- the [finally] of lines 115-119 covering the polling call
    only -- no cleanup is called either, also when it is the site's start
    that failed, after the runner had been set up. *)
Theorem listener_failure_skips_cleanup (env : gmap string string) (w : World)
    (st : state) (bot : Bot) (st1 : state) (port : Z) (e : exn) :
  _build_bot env w st = (Ret bot, st1) →
  port_of_env env w = inr port →
  (setup_result w = Some e
   ∨ (setup_result w = None ∧ start_result w port = Some e)) →
  (main env w st).1 = Raise e
  ∧ attrs (main env w st).2 = attrs st
  ∧ ∃ evs, trace (main env w st).2 = (trace st ++ evs)%list
           ∧ count_calls is_RunnerCleanup evs = 0%nat
           ∧ count_calls is_StartPolling evs = 0%nat
           ∧ count_calls is_wiring_call evs = 0%nat
           ∧ (setup_result w = None → (RunnerSetup health_app, None) ∈ evs).
Proof.
  intros Eb Hp Hfail.
  destruct (build_bot_frame _ _ _ _ _ Eb) as (Ha1 & bevs & Ht1 & Hb).
  assert (H0 : ∀ p, (∀ c, is_build_call c = true → p c = false) →
                    count_calls p bevs = 0%nat).
  { intros p Hp'. apply count_calls_build; assumption. }
  destruct Hfail as [Hs | [Hs Hst]].
  - assert (Hm : main env w st
                 = (Raise e, log (RunnerSetup health_app) (Some e) st1)).
    { unfold main. unfold bind at 1. rewrite Eb.
      unfold bind at 1, int. unfold port_of_env in Hp. rewrite Hp.
      unfold ret at 1. unfold bind at 1, ext at 1. rewrite Hs. reflexivity. }
    rewrite Hm. simpl. split; [reflexivity |]. split; [exact Ha1 |].
    exists (bevs ++ [(RunnerSetup health_app, Some e)])%list.
    rewrite Ht1, <- (assoc_L (++)). split; [reflexivity |].
    rewrite !count_calls_app, !H0 by (intros []; simpl; congruence).
    simpl. repeat split. rewrite Hs. intros H; discriminate H.
  - assert (Hm : main env w st
                 = (Raise e, log (SiteStart "0.0.0.0" port) (Some e)
                               (log (RunnerSetup health_app) None st1))).
    { unfold main. unfold bind at 1. rewrite Eb.
      unfold bind at 1, int. unfold port_of_env in Hp. rewrite Hp.
      unfold ret at 1. unfold bind at 1, ext at 1. rewrite Hs. cbn beta iota.
      unfold bind at 1, ext at 1. rewrite Hst. reflexivity. }
    rewrite Hm. simpl. split; [reflexivity |]. split; [exact Ha1 |].
    exists (bevs ++ [(RunnerSetup health_app, None);
                     (SiteStart "0.0.0.0" port, Some e)])%list.
    rewrite Ht1, <- !(assoc_L (++)). split; [reflexivity |].
    rewrite !count_calls_app, !H0 by (intros []; simpl; congruence).
    simpl. repeat split. intros _.
    rewrite elem_of_app, elem_of_cons. auto.
Qed.

Lemma listener_failure_skips_cleanup_witness :
  (main ∅ grudging_start_world (fresh bot_module)).1
  = Raise (OtherException "OSError")
  ∧ attrs (main ∅ grudging_start_world (fresh bot_module)).2
    = attrs (fresh bot_module)
  ∧ ∃ evs, trace (main ∅ grudging_start_world (fresh bot_module)).2
           = (trace (fresh bot_module) ++ evs)%list
           ∧ count_calls is_RunnerCleanup evs = 0%nat
           ∧ count_calls is_StartPolling evs = 0%nat
           ∧ count_calls is_wiring_call evs = 0%nat
           ∧ (setup_result grudging_start_world = None →
              (RunnerSetup health_app, None) ∈ evs).
Proof.
  destruct (_build_bot ∅ grudging_start_world (fresh bot_module))
    as [[bot | e] st1] eqn:E; [| vm_compute in E; discriminate E].
  apply (listener_failure_skips_cleanup ∅ grudging_start_world (fresh bot_module)
           bot st1 8000 (OtherException "OSError") E).
  - vm_compute. reflexivity.
  - right. split; reflexivity.
Defined.

Lemma build_bot_constructor_fails env w st e :
  truthy (py_or (getenv env "BOT_TOKEN") (default VNone (attrs st !! "API_TOKEN")))
    = true →
  (∀ e', TCPConnector_result w = Some e' → is_Exception e' = true) →
  (∀ e', signature_result w = inl e' → is_Exception e' = true) →
  (AiohttpSession_result w = Some e
   ∨ (AiohttpSession_result w = None ∧ Bot_result w = Some e)) →
  ∃ st' evs,
    _build_bot env w st = (Raise e, st')
    ∧ attrs st' = attrs st
    ∧ trace st' = (trace st ++ evs)%list
    ∧ Forall (λ ev, is_build_call ev.1 = true) evs
    ∧ (AiohttpSession_result w = Some e → count_calls is_BotInit evs = 0%nat).
Proof.
  intros Htok Htcp Hsig Hfail. unfold _build_bot, bind.
  rewrite resolve_token_or, Htok. simpl.
  unfold build_connector, build_kwargs, signature_parameters, bind, ret,
    try_except, ext, log; simpl.
  destruct (TCPConnector_result w) as [e1 |]; simpl;
    [rewrite (Htcp e1 eq_refl); simpl |];
    (destruct (signature_result w) as [e2 | params]; simpl;
     [rewrite (Hsig e2 eq_refl); simpl |]);
    (destruct Hfail as [Hs | [Hs Hb]]; rewrite Hs; simpl; [| rewrite Hb; simpl]);
    rewrite <- ?(assoc_L (++)); eexists _, _;
    (split; [reflexivity |]); (split; [reflexivity |]);
    (split; [reflexivity |]); (split; [repeat constructor |]);
    intros H; try discriminate H; reflexivity.
Qed.

(** The two constructors of lines 54-60 are not guarded: when
    [AiohttpSession(...)] or [Bot(...)] raises, [main] raises that exception,
    the module is left as it was and nothing but the bot-building calls was
    made -- no listener, no polling; and when it is the session constructor
    that raised, [Bot(...)] was never called. *)
Theorem constructor_failure_is_fatal (env : gmap string string) (w : World)
    (st : state) (e : exn) :
  truthy (py_or (getenv env "BOT_TOKEN") (default VNone (attrs st !! "API_TOKEN")))
    = true →
  (∀ e', TCPConnector_result w = Some e' → is_Exception e' = true) →
  (∀ e', signature_result w = inl e' → is_Exception e' = true) →
  (AiohttpSession_result w = Some e
   ∨ (AiohttpSession_result w = None ∧ Bot_result w = Some e)) →
  (main env w st).1 = Raise e
  ∧ attrs (main env w st).2 = attrs st
  ∧ ∃ evs, trace (main env w st).2 = (trace st ++ evs)%list
           ∧ Forall (λ ev, is_build_call ev.1 = true) evs
           ∧ (AiohttpSession_result w = Some e →
              count_calls is_BotInit evs = 0%nat).
Proof.
  intros Htok Htcp Hsig Hfail.
  destruct (build_bot_constructor_fails env w st e Htok Htcp Hsig Hfail)
    as (st' & evs & Eb & Ha & Ht & Hall & Hno).
  assert (Hm : main env w st = (Raise e, st')).
  { unfold main. unfold bind at 1. rewrite Eb. reflexivity. }
  rewrite Hm. simpl. split; [reflexivity |]. split; [exact Ha |].
  exists evs. auto.
Qed.

Lemma constructor_failure_is_fatal_witness :
  (main ∅ session_raising_world (fresh bot_module)).1
  = Raise (OtherException "TypeError")
  ∧ attrs (main ∅ session_raising_world (fresh bot_module)).2
    = attrs (fresh bot_module)
  ∧ ∃ evs, trace (main ∅ session_raising_world (fresh bot_module)).2
           = (trace (fresh bot_module) ++ evs)%list
           ∧ Forall (λ ev, is_build_call ev.1 = true) evs
           ∧ (AiohttpSession_result session_raising_world
              = Some (OtherException "TypeError") →
              count_calls is_BotInit evs = 0%nat).
Proof.
  apply (constructor_failure_is_fatal ∅ session_raising_world (fresh bot_module)
           (OtherException "TypeError")).
  - vm_compute. reflexivity.
  - intros e' H. discriminate H.
  - intros e' H. discriminate H.
  - left. reflexivity.
Defined.

(** ** The listener only with a bot, the cleanup only with a listener *)

Lemma build_bot_token_truthy env w st b st' :
  _build_bot env w st = (Ret b, st') → truthy (bot_token b) = true.
Proof.
  unfold _build_bot, bind.
  destruct (resolve_token_total env st) as [t ->].
  destruct (truthy t) eqn:Ht; simpl; [| intros H; discriminate H].
  unfold build_connector, build_kwargs, signature_parameters, bind, ret,
    try_except, ext, log; simpl.
  destruct (TCPConnector_result w) as [e1 |]; simpl;
    [destruct (is_Exception e1); simpl |];
    try (destruct (signature_result w) as [e2 | params]; simpl;
         [destruct (is_Exception e2); simpl |]);
    try (destruct (AiohttpSession_result w) as [e3 |]; simpl);
    try (destruct (Bot_result w) as [e4 |]; simpl);
    intros H; try discriminate H; injection H as <- _; exact Ht.
Qed.

(** The runner of the health listener is set up only in a run in which
    [_build_bot] has returned a bot, with a truthy token; with no token,
    [main] raises the RuntimeError having made no call at all, so the health
    endpoint never comes up. *)
Theorem listener_needs_bot (env : gmap string string) (w : World) (st : state) :
  (∀ evs a o,
      trace (main env w st).2 = (trace st ++ evs)%list →
      (RunnerSetup a, o) ∈ evs →
      ∃ bot st1, _build_bot env w st = (Ret bot, st1)
                 ∧ truthy (bot_token bot) = true)
  ∧ ((env !! "BOT_TOKEN" = None ∨ env !! "BOT_TOKEN" = Some "") →
     truthy (default VNone (attrs st !! "API_TOKEN")) = false →
     main env w st = (Raise (RuntimeError no_token_message), st)).
Proof.
  split.
  - intros evs a o Ht Hin. apply main_events_unique in Ht.
    destruct Ht as [e bevs Hbuilt | b bevs ep Hbuilt Hp | b bevs p e Hbuilt Hp Hs
                   | b bevs p e Hbuilt Hp Hs Hst
                   | b bevs p e a' wevs Hbuilt Hp Hs Hst Hw
                   | b bevs p a' wevs Hbuilt Hp Hs Hst Hw Hdp
                   | b bevs p a' wevs dp' Hbuilt Hp Hs Hst Hw Hdp];
      destruct Hbuilt as (st1 & Eb & Hall);
      try (exists b, st1; split; [exact Eb |];
           exact (build_bot_token_truthy _ _ _ _ _ Eb)).
    split_member Hin; wrong_kind Hin.
  - intros He Ha. unfold main. unfold bind at 1.
    rewrite (build_bot_no_token env w st He Ha). reflexivity.
Qed.

Lemma listener_needs_bot_witness :
  (∃ bot st1, _build_bot ∅ quiet_world (fresh bot_module) = (Ret bot, st1)
              ∧ truthy (bot_token bot) = true)
  ∧ main ∅ quiet_world (fresh tokenless_module)
    = (Raise (RuntimeError no_token_message), fresh tokenless_module).
Proof.
  split.
  - destruct (listener_needs_bot ∅ quiet_world (fresh bot_module)) as [H _].
    apply (H (trace (main ∅ quiet_world (fresh bot_module)).2) health_app None).
    + reflexivity.
    + vm_compute. do 4 apply list_elem_of_further. apply list_elem_of_here.
  - destruct (listener_needs_bot ∅ quiet_world (fresh tokenless_module)) as [_ H].
    apply H; [left |]; vm_compute; reflexivity.
Defined.

(** A cleanup call in a run is the last call of the run, is the only one,
    and comes after a runner setup and a site start that both returned: the
    cleanup is never attempted for a listener that did not come up. *)
Theorem cleanup_needs_listener (env : gmap string string) (w : World)
    (st : state) (evs : list (call * outcome)) (o : outcome) :
  trace (main env w st).2 = (trace st ++ evs)%list →
  (RunnerCleanup, o) ∈ evs →
  o = cleanup_result w
  ∧ ∃ pre port,
      evs = (pre ++ [(RunnerCleanup, o)])%list
      ∧ (RunnerSetup health_app, None) ∈ pre
      ∧ (SiteStart "0.0.0.0" port, None) ∈ pre
      ∧ count_calls is_RunnerCleanup pre = 0%nat.
Proof.
  intros Ht Hin. apply main_events_unique in Ht.
  destruct Ht as [e bevs Hbuilt | b bevs ep Hbuilt Hp | b bevs p e Hbuilt Hp Hs
                 | b bevs p e Hbuilt Hp Hs Hst
                 | b bevs p e a' wevs Hbuilt Hp Hs Hst Hw
                 | b bevs p a' wevs Hbuilt Hp Hs Hst Hw Hdp
                 | b bevs p a' wevs dp' Hbuilt Hp Hs Hst Hw Hdp];
    destruct Hbuilt as (_ & _ & Hall); try destruct Hw as [Hwall _ _ _ _];
    split_member Hin; try wrong_kind Hin; try discriminate Hin;
    injection Hin as ->; (split; [reflexivity |]).
  - exists (bevs ++ listener_calls p None ++ wevs)%list, p.
    rewrite <- !(assoc_L (++)). split; [reflexivity |].
    unfold listener_calls.
    repeat (rewrite elem_of_app || rewrite elem_of_cons).
    split; [auto |]. split; [auto |].
    rewrite !count_calls_app.
    rewrite (count_calls_none _ _ _ Hall), (count_calls_none _ _ _ Hwall);
      [reflexivity | intros []; simpl; congruence ..].
  - exists (bevs ++ listener_calls p None ++ wevs
                 ++ [(StartPolling dp' b, start_polling_result w)])%list, p.
    rewrite <- !(assoc_L (++)). split; [reflexivity |].
    unfold listener_calls.
    repeat (rewrite elem_of_app || rewrite elem_of_cons).
    split; [auto |]. split; [auto |].
    rewrite !count_calls_app.
    rewrite (count_calls_none _ _ _ Hall), (count_calls_none _ _ _ Hwall);
      [reflexivity | intros []; simpl; congruence ..].
Qed.

Lemma cleanup_needs_listener_witness :
  None = cleanup_result quiet_world
  ∧ ∃ pre port,
      trace (main ∅ quiet_world (fresh bot_module)).2
      = (pre ++ [(RunnerCleanup, None)])%list
      ∧ (RunnerSetup health_app, None) ∈ pre
      ∧ (SiteStart "0.0.0.0" port, None) ∈ pre
      ∧ count_calls is_RunnerCleanup pre = 0%nat.
Proof.
  apply (cleanup_needs_listener ∅ quiet_world (fresh bot_module)).
  - reflexivity.
  - vm_compute. do 9 apply list_elem_of_further. apply list_elem_of_here.
Defined.

(** ** A module without a dispatcher (lines 95-98, 106-109, 113-119) *)

Lemma swallowed_completes w (r : result unit) :
  swallowed w → completes_or_escapes w r → r = Ret tt.
Proof.
  intros Hsw [-> | (e & -> & Hne & Hin)]; [reflexivity |].
  rewrite (Hsw e Hin) in Hne. discriminate.
Qed.

Lemma include_no_dispatcher w st :
  attrs st !! "dp" = None → trace (include_router_once w st).2 = trace st.
Proof.
  intros Hdp. unfold include_router_once. run_block.
  destruct (truthy (default (VBool false) (attrs st !! "_KOYEB_ROUTER_INCLUDED")));
    simpl; [reflexivity |].
  rewrite Hdp. simpl. repeat case_outcome; reflexivity.
Qed.

Lemma register_no_dispatcher w st :
  attrs st !! "dp" = None → trace (register_startup w st).2 = trace st.
Proof.
  intros Hdp. unfold register_startup. run_block.
  destruct (bool_decide (is_Some (attrs st !! "on_startup"))); simpl;
    [| reflexivity].
  rewrite Hdp. simpl. reflexivity.
Qed.

(** When the module has no [dp], and the guarded calls raise nothing but
    [Exception]s, a run that got its listener up makes no inclusion, no
    registration and no polling call: right after the listener's two calls it
    calls the cleanup, and [main] raises the AttributeError for [dp]. *)
Theorem missing_dispatcher (env : gmap string string) (w : World) (st : state)
    (bot : Bot) (st1 : state) (port : Z) :
  _build_bot env w st = (Ret bot, st1) →
  port_of_env env w = inr port →
  setup_result w = None → start_result w port = None →
  swallowed w →
  attrs st !! "dp" = None →
  (main env w st).1 = Raise (AttributeError (no_attribute_message "dp"))
  ∧ trace (main env w st).2
    = (trace st1 ++ listener_calls port None
                 ++ [(RunnerCleanup, cleanup_result w)])%list.
Proof.
  intros Eb Hp Hs Hst Hsw Hdp.
  destruct (build_bot_frame _ _ _ _ _ Eb) as (Ha1 & _).
  destruct (main env w st) as [rf sf] eqn:Em. simpl.
  rewrite (main_after_listener env w st bot st1 port Eb Hp Hs Hst) in Em.
  unfold bind at 1 in Em.
  destruct (patch_bot w bot (listening port st1)) as [ra sa] eqn:Ea.
  destruct (patch_bot_spec _ _ _ _ _ Ea) as (Hta & Haa & Hra).
  rewrite (swallowed_completes w ra Hsw Hra) in *. cbn beta iota in Em.
  assert (Hdpa : attrs sa !! "dp" = None).
  { rewrite Haa by discriminate. simpl. rewrite Ha1. exact Hdp. }
  unfold bind at 1 in Em.
  destruct (include_router_once w sa) as [rb sb] eqn:Ei.
  destruct (include_router_once_spec _ _ _ _ Ei) as (Hai & _ & _ & Hrb).
  rewrite (swallowed_completes w rb Hsw Hrb) in *. cbn beta iota in Em.
  pose proof (include_no_dispatcher w sa Hdpa) as Htb. rewrite Ei in Htb.
  simpl in Htb.
  assert (Hdpb : attrs sb !! "dp" = None) by (rewrite Hai by discriminate; exact Hdpa).
  unfold bind at 1 in Em.
  destruct (register_startup w sb) as [rc sc] eqn:Er.
  destruct (register_startup_spec _ _ _ _ Er) as (Har & _ & Hrc).
  rewrite (swallowed_completes w rc Hsw Hrc) in *. cbn beta iota in Em.
  pose proof (register_no_dispatcher w sb Hdpb) as Htc. rewrite Er in Htc.
  simpl in Htc.
  apply finale_spec in Em. rewrite Har, Hdpb in Em.
  destruct Em as (_ & Htf & ->). split.
  - unfold after_cleanup.
    destruct (cleanup_result w) as [e |] eqn:Hc; [| reflexivity].
    rewrite (Hsw e); [reflexivity |].
    unfold guarded_outcomes. rewrite <- Hc. rewrite !elem_of_cons. auto 10.
  - rewrite Htf, Htc, Htb, Hta. unfold listening, log, listener_calls. simpl.
    rewrite <- !(assoc_L (++)). reflexivity.
Qed.

Lemma quiet_swallowed : swallowed quiet_world.
Proof.
  intros e. unfold guarded_outcomes. simpl.
  rewrite !elem_of_cons, elem_of_nil.
  intros [H | [H | [H | [H | [H | [H | [H | []]]]]]]]; discriminate H.
Defined.

Lemma missing_dispatcher_witness :
  ∃ st1,
    (main ∅ quiet_world (fresh dispatcherless_module)).1
    = Raise (AttributeError (no_attribute_message "dp"))
    ∧ trace (main ∅ quiet_world (fresh dispatcherless_module)).2
      = (trace st1 ++ listener_calls 8000 None
                   ++ [(RunnerCleanup, cleanup_result quiet_world)])%list.
Proof.
  destruct (_build_bot ∅ quiet_world (fresh dispatcherless_module))
    as [[bot | e] st1] eqn:E; [| vm_compute in E; discriminate E].
  exists st1.
  apply (missing_dispatcher ∅ quiet_world (fresh dispatcherless_module) bot st1
           8000 E); try (vm_compute; reflexivity).
  exact quiet_swallowed.
Defined.
